(** * The ingestion and query pipelines of the RAG research assistant

    A shallow embedding of [research_tool/rag.py]: the three entry points
    [process_urls], [process_documents] and [generate_answer], the two
    module globals [llm] and [vector_store] they share, and the temporary
    files of document ingestion.  The generators are embedded as resumable
    machines: one call of [next] runs the body up to its next [yield].
    The callers in [api.py] and [main.py] follow, then the text splitter of
    the library, and last the exits taken when a library call raises. *)

From Stdlib Require Import Strings.String Strings.Ascii Strings.Byte.
From stdpp Require Import base option list strings gmap sorting pretty.

(** ** Strings *)

Definition LF : string := String (ascii_of_nat 10) "".
Definition DQUOTE : string := String (ascii_of_nat 34) "".

(** [sep.join(parts)] *)
Definition join (sep : string) (parts : list string) : string :=
  String.concat sep parts.

(** ** Data *)

(** A langchain [Document]: text and a metadata dict. *)
Record Document := {
  page_content : string;
  metadata : gmap string string
}.

(** What [retriever.invoke] hands back.  [generate_answer] reads every item
    through [getattr] with a default, and through [.get] when the item is a
    dict, so an item is either an object whose attributes may be missing or
    a dict whose ["metadata"] key may be missing. *)
Inductive retrieved :=
| DocObject (content : option string) (meta : option (gmap string string))
| DocDict (meta : option (gmap string string)).

Definition of_document (d : Document) : retrieved :=
  DocObject (Some (page_content d)) (Some (metadata d)).

(** An uploaded file: [.name] and [.getvalue()]. *)
Record uploaded_file := {
  name : string;
  getvalue : list byte
}.

Inductive exn :=
| RuntimeError (msg : string)
| Exception (msg : string).

Inductive result (A : Type) :=
| Ok (a : A)
| Raise (e : exn).
Arguments Ok {A} a.
Arguments Raise {A} e.

(** [str(e)] *)
Definition str (e : exn) : string :=
  match e with RuntimeError m | Exception m => m end.

(** ** Constants *)

Definition CHUNK_SIZE : nat := 1000.
Definition EMBEDDING_MODEL : string := "sentence-transformers/all-MiniLM-L6-v2".
Definition VECTORSTORE_DIR : string := "resources/vectorstore".
Definition COLLECTION_NAME : string := "real_estate".

(** ** Handles held in the module globals *)

Record ChatGroq := {
  model : string;
  temperature_tenths : nat;
  max_tokens : nat
}.

Record Chroma := {
  collection_name : string;
  embedding_function : string;
  persist_directory : string
}.

(** [RecursiveCharacterTextSplitter(...)]: the keyword arguments given at the
    call site.  [chunk_overlap] is [None] when the argument is not passed and
    the library's own default applies. *)
Record splitter := {
  separators : list string;
  chunk_size : nat;
  chunk_overlap : option nat
}.

Inductive loader_kind :=
| PyPDFLoader
| Docx2txtLoader
| TextLoader
| UnstructuredFileLoader.

(** How the [with tempfile.NamedTemporaryFile(delete=False, ...)] block of
    one file ends. *)
Inductive tmp_outcome :=
| TmpCreateFails (e : exn)   (* the constructor raises: nothing on disk *)
| TmpWriteFails (e : exn)    (* file created, [getvalue]/[write] raises *)
| TmpSaved.

(** ** External collaborators

    Everything the module calls into: the environment, the document
    loaders, the text splitter, the identifier source, the retriever of the
    vector database and the chat model.  Random or remote behaviour is an
    oracle indexed by a draw counter kept in the world. *)
Record collaborators := {
  groq_model : option string;
  url_load : list string → list Document;
  path_suffix_lower : string → string;
  save_tmp : uploaded_file → tmp_outcome;
  file_load : loader_kind → nat → uploaded_file → result (list Document);
  unlink_ok : nat → bool;
  split_text : splitter → string → list string;
  uuid4 : nat → string;
  retrieve : gmap string Document → string → list retrieved;
  llm_invoke : nat → string → option (option string)
}.

(** Calls made to the collaborators and to the vector database, in order. *)
Inductive call :=
| CallResetCollection
| CallLoadUrls (urls : list string)
| CallLoadFile (loader : loader_kind) (path : nat) (file : string)
| CallUnlink (path : nat)
| CallSplit (s : splitter) (docs : list Document)
| CallAddDocuments (docs : list Document) (ids : list string)
| CallRetrieve (query : string)
| CallLlm (messages : string).

(** ** The process and its surroundings

    [llm] and [vector_store] are the two module globals ([None] is Python's
    [None]).  [collection] is the content of the Chroma collection kept
    under [VECTORSTORE_DIR], keyed by identifier; it outlives the process.
    [tmp_files] are the temporary files present on disk. *)
Record world := {
  llm : option ChatGroq;
  vector_store : option Chroma;
  collection : gmap string Document;
  tmp_files : gset nat;
  uuids_drawn : nat;
  llm_calls : nat;
  calls : list call
}.

Definition set_llm (v : option ChatGroq) (w : world) : world :=
  {| llm := v; vector_store := vector_store w; collection := collection w;
     tmp_files := tmp_files w; uuids_drawn := uuids_drawn w;
     llm_calls := llm_calls w; calls := calls w |}.

Definition set_vector_store (v : option Chroma) (w : world) : world :=
  {| llm := llm w; vector_store := v; collection := collection w;
     tmp_files := tmp_files w; uuids_drawn := uuids_drawn w;
     llm_calls := llm_calls w; calls := calls w |}.

Definition set_collection (c : gmap string Document) (w : world) : world :=
  {| llm := llm w; vector_store := vector_store w; collection := c;
     tmp_files := tmp_files w; uuids_drawn := uuids_drawn w;
     llm_calls := llm_calls w; calls := calls w |}.

Definition set_tmp_files (fs : gset nat) (w : world) : world :=
  {| llm := llm w; vector_store := vector_store w; collection := collection w;
     tmp_files := fs; uuids_drawn := uuids_drawn w;
     llm_calls := llm_calls w; calls := calls w |}.

Definition set_uuids_drawn (n : nat) (w : world) : world :=
  {| llm := llm w; vector_store := vector_store w; collection := collection w;
     tmp_files := tmp_files w; uuids_drawn := n;
     llm_calls := llm_calls w; calls := calls w |}.

Definition set_llm_calls (n : nat) (w : world) : world :=
  {| llm := llm w; vector_store := vector_store w; collection := collection w;
     tmp_files := tmp_files w; uuids_drawn := uuids_drawn w;
     llm_calls := n; calls := calls w |}.

Definition record_call (c : call) (w : world) : world :=
  {| llm := llm w; vector_store := vector_store w; collection := collection w;
     tmp_files := tmp_files w; uuids_drawn := uuids_drawn w;
     llm_calls := llm_calls w; calls := calls w ++ [c] |}.

(** A process that has just started: both globals are [None]; the disk
    holds whatever earlier processes left there. *)
Definition fresh_process (persisted : gmap string Document) (tmp : gset nat)
  : world :=
  {| llm := None; vector_store := None; collection := persisted;
     tmp_files := tmp; uuids_drawn := 0; llm_calls := 0; calls := [] |}.

(** ** The vector database *)

(** Modelled from the spec: the vector database client (Chroma) is an
    external library.  Per the Knowledge Store Gateway contract, [reset]
    discards every stored chunk. *)
Definition reset_collection (w : world) : world :=
  record_call CallResetCollection (set_collection ∅ w).

(** Modelled from the spec: [add] stores every chunk under its generated
    identifier and is a no-op on empty input.  This is the call when it
    returns; a client may raise instead, as Chroma does for an empty
    batch, which [Raising] below accounts for. *)
Definition store_chunks (docs : list Document) (ids : list string)
    (c : gmap string Document) : gmap string Document :=
  foldl (λ acc p, <[p.1 := p.2]> acc) c (zip ids docs).

Definition add_documents (docs : list Document) (ids : list string)
    (w : world) : world :=
  record_call (CallAddDocuments docs ids)
    (set_collection (store_chunks docs ids (collection w)) w).

(** Modelled from the spec: the splitter derives the chunks of a document
    from its text and propagates the metadata unchanged to each of them. *)
Definition split_documents (split : string → list string)
    (docs : list Document) : list Document :=
  d ← docs;
  (λ t, {| page_content := t; metadata := metadata d |}) <$> split (page_content d).

(** ** The module, over its collaborators *)

Section rag.
Variable E : collaborators.

(** *** [initialize_components] *)

Definition initialize_components (w : world) : world :=
  let w1 :=
    match llm w with
    | None =>
        set_llm (Some {| model := default "llama-3.3-70b-versatile" (groq_model E);
                         temperature_tenths := 9;
                         max_tokens := 500 |}) w
    | Some _ => w
    end in
  match vector_store w1 with
  | None =>
      set_vector_store (Some {| collection_name := COLLECTION_NAME;
                                embedding_function := EMBEDDING_MODEL;
                                persist_directory := VECTORSTORE_DIR |}) w1
  | Some _ => w1
  end.

(** *** [generate_answer] *)

(** [prompt.format_messages(context=..., question=...)]: the template with
    both placeholders filled. *)
Definition format_messages (context question : string) : string :=
  LF +:+
  "        You are a helpful research assistant." +:+ LF +:+
  "        Answer the question using only the provided context." +:+ LF +:+
  "        If the answer is not contained in the context, reply:" +:+ LF +:+
  "        " +:+ DQUOTE +:+
    "I don't have enough information to answer this question." +:+ DQUOTE +:+ LF +:+
  LF +:+
  "        Context:" +:+ LF +:+
  "        " +:+ context +:+ LF +:+
  LF +:+
  "        Question: " +:+ question +:+ LF +:+
  LF +:+
  "        Answer (concise):" +:+ LF +:+
  "        ".

(** [getattr(doc, "page_content", "")] *)
Definition doc_text (doc : retrieved) : string :=
  match doc with
  | DocObject content _ => default "" content
  | DocDict _ => ""
  end.

(** [getattr(doc, "metadata", {})], or [doc.get("metadata", {})] for a dict *)
Definition doc_metadata (doc : retrieved) : gmap string string :=
  match doc with
  | DocObject _ meta => default ∅ meta
  | DocDict meta => default ∅ meta
  end.

(** The loop that fills the set [source_urls]. *)
Definition collect_sources (docs : list retrieved) : gset string :=
  foldl (λ source_urls doc,
           match doc_metadata doc !! "source" with
           | Some s => source_urls ∪ {[ s ]}
           | None => source_urls
           end) ∅ docs.

(** [sorted(source_urls)] *)
Definition sorted (source_urls : gset string) : list string :=
  merge_sort String.le (elements source_urls).

Definition sources_string (source_urls : gset string) : string :=
  if decide (source_urls = ∅) then "" else join LF (sorted source_urls).

(** [getattr(response, "content", "") if response is not None else ""] *)
Definition response_text (response : option (option string)) : string :=
  match response with
  | Some r => default "" r
  | None => ""
  end.

(** The context block: [(LF LF).join(getattr(doc, "page_content", "") ...)] *)
Definition context_text (docs : list retrieved) : string :=
  join (LF +:+ LF) (doc_text <$> docs).

Definition extract_sources (docs : list retrieved) : string :=
  sources_string (collect_sources docs).

Definition generate_answer (query : string) (w : world)
  : result (string * string) * world :=
  let w1 := match vector_store w with
            | None => initialize_components w
            | Some _ => w
            end in
  match vector_store w1 with
  | None =>
      (Raise (RuntimeError
         "Vector database is not initialized. Please process URLs or documents first."),
       w1)
  | Some _ =>
      let docs := retrieve E (collection w1) query in
      let w2 := record_call (CallRetrieve query) w1 in
      let messages := format_messages (context_text docs) query in
      match llm w2 with
      | None =>
          (Raise (Exception "'NoneType' object has no attribute 'invoke'"), w2)
      | Some _ =>
          let response := llm_invoke E (llm_calls w2) messages in
          let w3 := record_call (CallLlm messages)
                      (set_llm_calls (S (llm_calls w2)) w2) in
          let answer := response_text response in
          let sources := extract_sources docs in
          (Ok (answer, sources), w3)
      end
  end.

(** *** Generators

    A generator is a state [G] and a function [next]: one call runs the
    body from where it is suspended to the next [yield] (result [Some s])
    or to its end (result [None], Python's StopIteration).  [take n] is a
    caller that asks for at most [n] items and then drops the generator;
    nothing of the body runs after the last [next]. *)
Fixpoint take {G : Type} (next : G → world → option string * G * world)
    (n : nat) (g : G) (w : world) : list string * G * world :=
  match n with
  | 0 => ([], g, w)
  | S n' =>
      match next g w with
      | (None, g', w') => ([], g', w')
      | (Some status, g', w') =>
          let '(statuses, g'', w'') := take next n' g' w' in
          (status :: statuses, g'', w'')
      end
  end.

(** [[str(uuid4()) for _ in range(n)]] *)
Definition draw_uuids (n : nat) (w : world) : list string * world :=
  ((λ i, uuid4 E (uuids_drawn w + i)) <$> seq 0 n,
   set_uuids_drawn (uuids_drawn w + n) w).

Definition SEPARATORS : list string := [LF +:+ LF; LF; "."; " "].

(** *** [process_urls] *)

Definition urls_splitter : splitter :=
  {| separators := SEPARATORS; chunk_size := CHUNK_SIZE; chunk_overlap := None |}.

(** Where the body of [process_urls] is suspended. *)
Inductive urls_gen :=
| UrlsStart (urls : list string)
| UrlsInitializing (urls : list string)
| UrlsResetting (urls : list string)
| UrlsLoading (urls : list string)
| UrlsSplitting (data : list Document)
| UrlsAdding (docs : list Document)
| UrlsDone
| UrlsReturned.

Definition process_urls (urls : list string) : urls_gen := UrlsStart urls.

Definition urls_next (g : urls_gen) (w : world)
  : option string * urls_gen * world :=
  match g with
  | UrlsStart urls =>
      (Some "Initializing Components", UrlsInitializing urls, w)
  | UrlsInitializing urls =>
      let w := initialize_components w in
      (Some "Resetting vector store...✅", UrlsResetting urls, w)
  | UrlsResetting urls =>
      let w := reset_collection w in
      (Some "Loading data...✅", UrlsLoading urls, w)
  | UrlsLoading urls =>
      let data := url_load E urls in
      let w := record_call (CallLoadUrls urls) w in
      (Some "Splitting text into chunks...✅", UrlsSplitting data, w)
  | UrlsSplitting data =>
      let docs := split_documents (split_text E urls_splitter) data in
      let w := record_call (CallSplit urls_splitter data) w in
      (Some "Add chunks to vector database...✅", UrlsAdding docs, w)
  | UrlsAdding docs =>
      let '(uuids, w) := draw_uuids (length docs) w in
      let w := add_documents docs uuids w in
      (Some "Done adding docs to vector database...✅", UrlsDone, w)
  | UrlsDone => (None, UrlsReturned, w)
  | UrlsReturned => (None, UrlsReturned, w)
  end.

(** [for status in process_urls(urls)]: the body has six yields. *)
Definition run_urls (urls : list string) (w : world)
  : list string * urls_gen * world :=
  take urls_next 7 (process_urls urls) w.

(** *** [process_documents] *)

Definition documents_splitter : splitter :=
  {| separators := SEPARATORS; chunk_size := CHUNK_SIZE; chunk_overlap := Some 200 |}.

(** [Path(uploaded_file.name).suffix.lower()] *)
Definition file_extension (f : uploaded_file) : string :=
  path_suffix_lower E (name f).

(** The [if]/[elif] chain that picks the loader class. *)
Definition select_loader (file_extension : string) : loader_kind :=
  if decide (file_extension = ".pdf") then PyPDFLoader
  else if decide (file_extension ∈ [".docx"; ".doc"]) then Docx2txtLoader
  else if decide (file_extension = ".txt") then TextLoader
  else UnstructuredFileLoader.

Definition loading_msg (f : uploaded_file) : string :=
  "Loading " +:+ name f +:+ "...".

Definition loaded_msg (f : uploaded_file) (docs : list Document) : string :=
  "✅ Loaded " +:+ name f +:+ " (" +:+ pretty (length docs) +:+ " pages/chunks)".

Definition no_content_msg (f : uploaded_file) : string :=
  "⚠️ Warning: " +:+ name f +:+ " loaded but contains no content".

Definition error_msg (f : uploaded_file) (e : exn) : string :=
  "❌ Error loading " +:+ name f +:+ ": " +:+ str e.

Definition no_documents_msg : string :=
  "❌ No documents were successfully loaded. Please check file formats and try again.".

Definition splitting_msg (all_docs : list Document) : string :=
  "Splitting " +:+ pretty (length all_docs) +:+ " document(s) into chunks...✅".

Definition created_msg (split_docs : list Document) : string :=
  "Created " +:+ pretty (length split_docs) +:+ " chunks from documents".

Definition done_msg (split_docs : list Document) : string :=
  "✅ Done! Added " +:+ pretty (length split_docs) +:+
  " chunks to vector database. You can now ask questions.".

(** Where the body of [process_documents] is suspended.  Inside the loop
    the locals [all_docs] and [tmp_paths] and the files still to come are
    part of the state. *)
Inductive docs_gen :=
| DocsStart (files : list uploaded_file)
| DocsInitializing (files : list uploaded_file)
| DocsResetting (files : list uploaded_file)
| DocsLoading (f : uploaded_file) (tmp_path : nat) (rest : list uploaded_file)
    (all_docs : list Document) (tmp_paths : list nat)
| DocsReported (rest : list uploaded_file)
    (all_docs : list Document) (tmp_paths : list nat)
| DocsFailed
| DocsSplitting (all_docs : list Document)
| DocsCreated (split_docs : list Document)
| DocsAdding (split_docs : list Document)
| DocsDone
| DocsReturned.

Definition process_documents (uploaded_files : list uploaded_file) : docs_gen :=
  DocsStart uploaded_files.

(** One round of the clean-up loop: [os.path.exists], then [os.unlink]; a
    failing [unlink] is caught and only printed. *)
Definition unlink_tmp (w : world) (tmp_path : nat) : world :=
  if decide (tmp_path ∈ tmp_files w) then
    let w := record_call (CallUnlink tmp_path) w in
    if unlink_ok E tmp_path
    then set_tmp_files (tmp_files w ∖ {[ tmp_path ]}) w
    else w
  else w.

Definition clean_up (tmp_paths : list nat) (w : world) : world :=
  foldl unlink_tmp w tmp_paths.

(** From the end of the [for] loop to the next [yield]. *)
Definition after_loop (all_docs : list Document) (tmp_paths : list nat)
    (w : world) : option string * docs_gen * world :=
  let w := clean_up tmp_paths w in
  match all_docs with
  | [] => (Some no_documents_msg, DocsFailed, w)
  | _ :: _ => (Some (splitting_msg all_docs), DocsSplitting all_docs, w)
  end.

(** [NamedTemporaryFile] creates a file under a name not yet in use. *)
Definition create_tmp (w : world) : nat * world :=
  let tmp_path := fresh (tmp_files w) in
  (tmp_path, set_tmp_files ({[ tmp_path ]} ∪ tmp_files w) w).

(** From the head of the [for] loop to the next [yield]. *)
Definition loop_head (files : list uploaded_file) (all_docs : list Document)
    (tmp_paths : list nat) (w : world) : option string * docs_gen * world :=
  match files with
  | [] => after_loop all_docs tmp_paths w
  | f :: rest =>
      match save_tmp E f with
      | TmpCreateFails e =>
          (Some (error_msg f e), DocsReported rest all_docs tmp_paths, w)
      | TmpWriteFails e =>
          let '(_, w) := create_tmp w in
          (Some (error_msg f e), DocsReported rest all_docs tmp_paths, w)
      | TmpSaved =>
          let '(tmp_path, w) := create_tmp w in
          (Some (loading_msg f),
           DocsLoading f tmp_path rest all_docs (tmp_paths ++ [tmp_path]), w)
      end
  end.

(** From [yield "Loading ..."] to the [yield] that reports the file. *)
Definition load_one (f : uploaded_file) (tmp_path : nat)
    (rest : list uploaded_file) (all_docs : list Document)
    (tmp_paths : list nat) (w : world) : option string * docs_gen * world :=
  let loader := select_loader (file_extension f) in
  let w := record_call (CallLoadFile loader tmp_path (name f)) w in
  match file_load E loader tmp_path f with
  | Ok [] => (Some (no_content_msg f), DocsReported rest all_docs tmp_paths, w)
  | Ok docs =>
      (Some (loaded_msg f docs), DocsReported rest (all_docs ++ docs) tmp_paths, w)
  | Raise e => (Some (error_msg f e), DocsReported rest all_docs tmp_paths, w)
  end.

Definition docs_next (g : docs_gen) (w : world)
  : option string * docs_gen * world :=
  match g with
  | DocsStart files =>
      (Some "Initializing Components", DocsInitializing files, w)
  | DocsInitializing files =>
      let w := initialize_components w in
      (Some "Resetting vector store...✅", DocsResetting files, w)
  | DocsResetting files =>
      let w := reset_collection w in
      loop_head files [] [] w
  | DocsLoading f tmp_path rest all_docs tmp_paths =>
      load_one f tmp_path rest all_docs tmp_paths w
  | DocsReported rest all_docs tmp_paths =>
      loop_head rest all_docs tmp_paths w
  | DocsFailed => (None, DocsReturned, w)
  | DocsSplitting all_docs =>
      let split_docs := split_documents (split_text E documents_splitter) all_docs in
      let w := record_call (CallSplit documents_splitter all_docs) w in
      (Some (created_msg split_docs), DocsCreated split_docs, w)
  | DocsCreated split_docs =>
      (Some "Adding chunks to vector database...✅", DocsAdding split_docs, w)
  | DocsAdding split_docs =>
      let '(uuids, w) := draw_uuids (length split_docs) w in
      let w := add_documents split_docs uuids w in
      (Some (done_msg split_docs), DocsDone, w)
  | DocsDone => (None, DocsReturned, w)
  | DocsReturned => (None, DocsReturned, w)
  end.

(** [for status in process_documents(files)]: at most two yields per file
    and seven around the loop. *)
Definition run_documents (uploaded_files : list uploaded_file) (w : world)
  : list string * docs_gen * world :=
  take docs_next (2 * length uploaded_files + 8) (process_documents uploaded_files) w.

(** *** The runs as a whole

    What a consumer that iterates to the end observes: the list of
    statuses and the world left behind, written as plain functions. *)

Definition urls_run (urls : list string) (w : world) : list string * world :=
  let w := initialize_components w in
  let w := reset_collection w in
  let data := url_load E urls in
  let w := record_call (CallLoadUrls urls) w in
  let docs := split_documents (split_text E urls_splitter) data in
  let w := record_call (CallSplit urls_splitter data) w in
  let '(uuids, w) := draw_uuids (length docs) w in
  let w := add_documents docs uuids w in
  (["Initializing Components"; "Resetting vector store...✅"; "Loading data...✅";
    "Splitting text into chunks...✅"; "Add chunks to vector database...✅";
    "Done adding docs to vector database...✅"], w).

(** The documents one file adds to [all_docs] when its temporary file gets
    the name [tmp_path]. *)
Definition file_docs (f : uploaded_file) (tmp_path : nat) : list Document :=
  match save_tmp E f with
  | TmpSaved =>
      match file_load E (select_loader (file_extension f)) tmp_path f with
      | Ok docs => docs
      | Raise _ => []
      end
  | TmpCreateFails _ | TmpWriteFails _ => []
  end.

(** The statuses one file gives rise to. *)
Definition file_report (f : uploaded_file) (tmp_path : nat) : list string :=
  match save_tmp E f with
  | TmpSaved =>
      [loading_msg f;
       match file_load E (select_loader (file_extension f)) tmp_path f with
       | Ok [] => no_content_msg f
       | Ok docs => loaded_msg f docs
       | Raise e => error_msg f e
       end]
  | TmpCreateFails e | TmpWriteFails e => [error_msg f e]
  end.

(** One turn of the [for] loop. *)
Definition file_round (f : uploaded_file) (all_docs : list Document)
    (tmp_paths : list nat) (w : world)
  : list string * list Document * list nat * world :=
  match save_tmp E f with
  | TmpCreateFails e => ([error_msg f e], all_docs, tmp_paths, w)
  | TmpWriteFails e => ([error_msg f e], all_docs, tmp_paths, (create_tmp w).2)
  | TmpSaved =>
      let '(tmp_path, w) := create_tmp w in
      let loader := select_loader (file_extension f) in
      let w := record_call (CallLoadFile loader tmp_path (name f)) w in
      (file_report f tmp_path, all_docs ++ file_docs f tmp_path,
       tmp_paths ++ [tmp_path], w)
  end.

(** The [for] loop. *)
Fixpoint load_files (files : list uploaded_file) (all_docs : list Document)
    (tmp_paths : list nat) (w : world)
  : list string * list Document * list nat * world :=
  match files with
  | [] => ([], all_docs, tmp_paths, w)
  | f :: rest =>
      let '(report, all_docs, tmp_paths, w) := file_round f all_docs tmp_paths w in
      let '(reports, all_docs, tmp_paths, w) := load_files rest all_docs tmp_paths w in
      (report ++ reports, all_docs, tmp_paths, w)
  end.

(** From the end of the loop to the end of the body. *)
Definition finish (all_docs : list Document) (tmp_paths : list nat) (w : world)
  : list string * world :=
  let w := clean_up tmp_paths w in
  match all_docs with
  | [] => ([no_documents_msg], w)
  | _ :: _ =>
      let split_docs := split_documents (split_text E documents_splitter) all_docs in
      let w := record_call (CallSplit documents_splitter all_docs) w in
      let '(uuids, w) := draw_uuids (length split_docs) w in
      let w := add_documents split_docs uuids w in
      ([splitting_msg all_docs; created_msg split_docs;
        "Adding chunks to vector database...✅"; done_msg split_docs], w)
  end.

(** [all_docs] at the end of the loop of a run started in [w]. *)
Definition loaded_documents (files : list uploaded_file) (w : world)
  : list Document :=
  (load_files files [] [] (reset_collection (initialize_components w))).1.1.2.

(** The loop and what follows it. *)
Definition loop_and_finish (files : list uploaded_file) (all_docs : list Document)
    (tmp_paths : list nat) (w : world) : list string * world :=
  let '(reports, all_docs, tmp_paths, w) := load_files files all_docs tmp_paths w in
  let '(closing, w) := finish all_docs tmp_paths w in
  (reports ++ closing, w).

Definition documents_run (files : list uploaded_file) (w : world)
  : list string * world :=
  let w := reset_collection (initialize_components w) in
  let '(statuses, w) := loop_and_finish files [] [] w in
  ("Initializing Components" :: "Resetting vector store...✅" :: statuses, w).

End rag.

(** The globals as [initialize_components] leaves them: the chat model is
    set whenever the store handle is. *)
Definition initialized (w : world) : Prop :=
  is_Some (vector_store w) → is_Some (llm w).

(** Both globals are the same objects in [w'] as in [w]. *)
Definition same_globals (w w' : world) : Prop :=
  llm w' = llm w ∧ vector_store w' = vector_store w.

(** The calls a run added to the log of the world it started from. *)
Definition calls_since (w w' : world) : list call :=
  drop (length (calls w)) (calls w').

Definition is_load_file (c : call) : bool :=
  match c with CallLoadFile _ _ _ => true | _ => false end.

Definition is_unlink (c : call) : bool :=
  match c with CallUnlink _ => true | _ => false end.

(** Calls that chunk documents or write chunks into the collection. *)
Definition is_split_or_add (c : call) : bool :=
  match c with CallSplit _ _ | CallAddDocuments _ _ => true | _ => false end.

(** The temporary paths handed to a loader. *)
Definition loaded_paths (cs : list call) : list nat :=
  omap (λ c, match c with CallLoadFile _ p _ => Some p | _ => None end) cs.

(** The statuses and the calls that follow the clean-up, by whether
    anything was loaded. *)
Definition closing_statuses (all_docs chunks : list Document) : list string :=
  match all_docs with
  | [] => [no_documents_msg]
  | _ :: _ =>
      [splitting_msg all_docs; created_msg chunks;
       "Adding chunks to vector database...✅"; done_msg chunks]
  end.

Definition closing_calls (all_docs chunks : list Document) (ids : list string)
  : list call :=
  match all_docs with
  | [] => []
  | _ :: _ => [CallSplit documents_splitter all_docs; CallAddDocuments chunks ids]
  end.

(** Texts joined with one blank line between neighbours, in list order. *)
Fixpoint blank_line_separated (texts : list string) : string :=
  match texts with
  | [] => ""
  | [t] => t
  | t :: rest => t +:+ LF +:+ LF +:+ blank_line_separated rest
  end.


(** ** A concrete set of collaborators, for evaluation *)

Module Demo.

Definition doc (text source : string) : Document :=
  {| page_content := text; metadata := {[ "source" := source ]} |}.

Definition lower_char (c : ascii) : ascii :=
  let n := nat_of_ascii c in
  if bool_decide (65 ≤ n ≤ 90) then ascii_of_nat (n + 32) else c.

(** What follows the last dot, in lower case. *)
Fixpoint after_last_dot (acc : option string) (s : string) : option string :=
  match s with
  | "" => acc
  | String c s' =>
      if decide (c = "."%char) then after_last_dot (Some "") s'
      else after_last_dot ((λ a, a +:+ String (lower_char c) "") <$> acc) s'
  end.

Definition suffix (n : string) : string :=
  match after_last_dot None n with
  | Some e => "." +:+ e
  | None => ""
  end.

Definition env : collaborators := {|
  groq_model := None;
  url_load := λ urls,
    omap (λ u, if decide (u = "https://down.example") then None
               else Some (doc ("page at " +:+ u) u)) urls;
  path_suffix_lower := suffix;
  save_tmp := λ f,
    if decide (name f = "locked.txt") then TmpWriteFails (Exception "disk full")
    else TmpSaved;
  file_load := λ loader tmp_path f,
    match loader, getvalue f with
    | UnstructuredFileLoader, _ => Raise (Exception "unsupported format")
    | _, [] => Ok []
    | _, _ => Ok [doc (string_of_list_byte (getvalue f))
                      ("/tmp/tmp" +:+ pretty tmp_path)]
    end;
  unlink_ok := λ _, true;
  split_text := λ _ t, if decide (t = "") then [] else [t];
  uuid4 := λ i, "uuid-" +:+ pretty i;
  retrieve := λ c _, of_document <$> (map_to_list c).*2;
  llm_invoke := λ _ _, Some (Some "42")
|}.

Definition notes : uploaded_file :=
  {| name := "notes.txt"; getvalue := list_byte_of_string "hello" |}.
Definition picture : uploaded_file :=
  {| name := "pic.png"; getvalue := list_byte_of_string "x" |}.
Definition blank : uploaded_file :=
  {| name := "blank.txt"; getvalue := [] |}.

Definition start : world := fresh_process ∅ ∅.

Definition site_urls : list string :=
  ["https://example.com/b"; "https://example.com/a"; "https://example.com/b"].

(** The process after it has ingested [site_urls]. *)
Definition loaded : world := (run_urls env site_urls start).2.

End Demo.

(** ** The front ends

    [api.py] and [main.py] call the three entry points and decide from the
    status strings what to tell the user. *)

(** [needle in s] *)
Fixpoint contains (needle s : string) : bool :=
  String.prefix needle s ||
  match s with
  | "" => false
  | String _ s' => contains needle s'
  end.

(** [s.split(LF)]: the pieces between line feeds; never an empty list. *)
Fixpoint split_lines (s : string) : list string :=
  match s with
  | "" => [""]
  | String c s' =>
      if decide (c = ascii_of_nat 10) then "" :: split_lines s'
      else match split_lines s' with
           | piece :: pieces => String c piece :: pieces
           | [] => [String c ""]
           end
  end.

(** The two [str] methods the front ends use on whole messages; they belong
    to the language runtime. *)
Record str_methods := {
  lower : string → string;
  strip : string → string
}.

(** [msg] carries a completion marker. *)
Definition success_marker (msg : string) : bool :=
  contains "Done!" msg || contains "chunks to vector database" msg.

(** [msg] carries a failure marker. *)
Definition error_marker (py : str_methods) (msg : string) : bool :=
  contains "❌" msg || contains "Error" msg || contains "failed" (lower py msg).


(** Calls that belong to an ingestion run. *)
Definition is_ingestion_call (c : call) : bool :=
  match c with
  | CallRetrieve _ | CallLlm _ => false
  | _ => true
  end.

(** *** [rag.py] run as a script *)

Module Script.

Definition urls : list string :=
  ["https://www.cnbc.com/2024/12/21/how-the-federal-reserves-rate-policy-affects-mortgages.html";
   "https://www.cnbc.com/2024/12/20/why-mortgage-rates-jumped-despite-fed-interest-rate-cut.html"].

Definition question : string :=
  "Tell me what was the 30 year fixed mortagate rate along with the date?".

(** The [if __name__ == "__main__"] block: [process_urls(urls)] builds the
    generator and drops it without asking for a status; then the question
    is put. *)
Definition main (E : collaborators) (w : world)
  : list string * result (string * string) * world :=
  let '(statuses, _, w) := take (urls_next E) 0 (process_urls urls) w in
  let '(r, w) := generate_answer E question w in
  (statuses, r, w).

End Script.

(** *** [api.py] *)

Module Api.

Record UploadFile := {
  filename : string;
  read : list byte
}.

Record URLResponse := {
  success : bool;
  message : string;
  status_messages : list string
}.

Record QueryResponse := {
  answer : string;
  sources : string
}.

(** What an endpoint gives back: its response model, or an [HTTPException]. *)
Inductive response (A : Type) :=
| Respond (body : A)
| HTTPException (status_code : nat) (detail : string).
Arguments Respond {A} body.
Arguments HTTPException {A} status_code detail.

(** [FileWrapper(file, content)] *)
Definition FileWrapper (file : UploadFile) (content : list byte) : uploaded_file :=
  {| name := filename file; getvalue := content |}.

(** The wrappers built from the uploads, contents read. *)
Definition file_wrappers (files : list UploadFile) : list uploaded_file :=
  (λ file, FileWrapper file (read file)) <$> files.

Section endpoints.
Variable E : collaborators.
Variable py : str_methods.

(** The endpoint wraps the run in [try]/[except Exception] and answers
    500 when it raises; this is the endpoint on the runs in which no
    library call raises, where that arm is not entered. *)
Definition process_documents_endpoint (files : list UploadFile) (w : world)
  : response URLResponse * world :=
  match files with
  | [] => (HTTPException 400 "At least one file is required", w)
  | _ :: _ =>
      let file_wrappers := file_wrappers files in
      let '(status_messages, _, w) := run_documents E file_wrappers w in
      let success := existsb success_marker status_messages in
      let error_occurred := existsb (error_marker py) status_messages in
      if success && negb error_occurred then
        (Respond {| success := true;
                    message := "Documents processed successfully";
                    status_messages := status_messages |}, w)
      else
        (Respond {| success := false;
                    message :=
                      "Document processing failed. Check status_messages for details.";
                    status_messages := status_messages |}, w)
  end.

End endpoints.

End Api.

(** *** [main.py] *)

Module Ui.

Record session_state := {
  docs_processed : bool;
  urls_processed : bool
}.

(** What a handler leaves on the page. *)
Inductive shown :=
| Nothing
| ErrorBox (text : string)
| SuccessBox (text : string)
| Answer (answer : string) (bullets : list string)
| Uncaught (e : exn).

Section handlers.
Variable E : collaborators.
Variable py : str_methods.




(** The lines written under "Source Links". *)
Definition source_bullets (sources : string) : list string :=
  if bool_decide (sources = "") then []
  else (λ source, "• " +:+ source) <$>
         filter (λ source, strip py source ≠ "") (split_lines sources).

(** The question box of the URL tab. *)
Definition ask_urls_tab (query1 : string) (w : world) : shown * world :=
  if bool_decide (query1 = "") then (Nothing, w)
  else
    match generate_answer E query1 w with
    | (Ok (answer, sources), w) => (Answer answer (source_bullets sources), w)
    | (Raise (RuntimeError _), w) => (ErrorBox "You must process URLs first", w)
    | (Raise (Exception e), w) => (Uncaught (Exception e), w)
    end.

(** The question box of the documents tab. *)
Definition ask_documents_tab (query2 : string) (st : session_state) (w : world)
  : shown * world :=
  if bool_decide (query2 = "") then (Nothing, w)
  else
    match generate_answer E query2 w with
    | (Ok (answer, sources), w) => (Answer answer (source_bullets sources), w)
    | (Raise (RuntimeError msg), w) =>
        if docs_processed st then (ErrorBox ("Error: " +:+ msg), w)
        else
          (ErrorBox
             "You must process documents first. Please upload and process documents before asking questions.",
           w)
    | (Raise (Exception e), w) => (ErrorBox ("An error occurred: " +:+ e), w)
    end.

End handlers.

End Ui.

(** ASCII-only [str] methods, for evaluation. *)
Module DemoStr.

Fixpoint ascii_lower (s : string) : string :=
  match s with
  | "" => ""
  | String c s' => String (Demo.lower_char c) (ascii_lower s')
  end.

Fixpoint lstrip (s : string) : string :=
  match s with
  | "" => ""
  | String c s' => if Ascii.is_space c then lstrip s' else s
  end.

Definition ascii_strip (s : string) : string :=
  String.rev (lstrip (String.rev (lstrip s))).

Definition py : str_methods := {| lower := ascii_lower; strip := ascii_strip |}.

Definition notes_upload : Api.UploadFile :=
  {| Api.filename := "notes.txt"; Api.read := list_byte_of_string "hello" |}.
Definition error_log_upload : Api.UploadFile :=
  {| Api.filename := "Error_log.txt"; Api.read := list_byte_of_string "all fine" |}.

End DemoStr.

(** ** The text splitter

    Modelled from the library: [RecursiveCharacterTextSplitter] belongs to
    langchain's text splitters, not to this repository.  The functions
    below follow its methods for the arguments [rag.py] passes: literal
    separators, [keep_separator] left at [True] (a separator stays at the
    head of the piece that follows it, and pieces are merged with the
    empty string between them), lengths counted by [len], which is the
    number of characters for ASCII text, whitespace stripped from every
    chunk, and 200 as the [chunk_overlap] of a splitter built without
    one. *)

Module TextSplitter.

Definition DEFAULT_CHUNK_OVERLAP : nat := 200.

Definition DEFAULT_SEPARATORS : list string := [LF +:+ LF; LF; " "; ""].

(** [re.split(re.escape(separator), text)] for a separator that is not
    empty: the pieces between the occurrences of [separator], found from
    left to right.  [skip] counts the characters of an occurrence still
    to pass over. *)
Fixpoint split_on (separator : string) (skip : nat) (text : string) : list string :=
  match text with
  | "" => [""]
  | String c rest =>
      match skip with
      | S skip' => split_on separator skip' rest
      | 0 =>
          if String.prefix separator text then
            "" :: split_on separator (String.length separator - 1) rest
          else
            match split_on separator 0 rest with
            | piece :: pieces => String c piece :: pieces
            | [] => [String c ""]
            end
      end
  end.

(** [_split_text_with_regex(text, separator, keep_separator=True)] *)
Definition split_text_with_regex (text separator : string) : list string :=
  let splits :=
    if decide (separator = "") then
      (λ c, String c "") <$> list_ascii_of_string text
    else
      match split_on separator 0 text with
      | first :: pieces => first :: ((λ piece, separator +:+ piece) <$> pieces)
      | [] => []
      end in
  filter (λ s, s ≠ "") splits.


Section splitter.
Variable strip : string → string.
Variable chunk_size chunk_overlap : nat.

(** [_join_docs(docs, separator)] *)
Definition join_docs (docs : list string) (separator : string) : option string :=
  let text := strip (join separator docs) in
  if decide (text = "") then None else Some text.

(** The [while] loop of [_merge_splits]: pieces are popped from the front
    of [current_doc] until what is left is no longer than [chunk_overlap]
    and leaves room for the piece about to be added, of length [len]. *)
Fixpoint drop_front (separator_len len : nat) (current_doc : list string)
    (total : nat) : list string * nat :=
  if (chunk_overlap <? total)
     || ((chunk_size <?
            total + len + (if bool_decide (current_doc = []) then 0 else separator_len))
         && (0 <? total))
  then
    match current_doc with
    | [] => ([], total)
    | first :: rest =>
        drop_front separator_len len rest
          (total - (String.length first + (if 1 <? length current_doc
                                           then separator_len else 0)))
    end
  else (current_doc, total).

(** The [for] loop of [_merge_splits], with the chunks kept as the lists
    of pieces they are joined from. *)
Fixpoint merge_from (separator_len : nat) (splits : list string)
    (docs : list (list string)) (current_doc : list string) (total : nat)
  : list (list string) :=
  match splits with
  | [] => docs ++ [current_doc]
  | d :: splits =>
      let len := String.length d in
      let '(docs, current_doc, total) :=
        if chunk_size <?
             total + len + (if bool_decide (current_doc = []) then 0 else separator_len)
        then
          match current_doc with
          | [] => (docs, current_doc, total)
          | _ :: _ =>
              let '(kept, total) := drop_front separator_len len current_doc total in
              (docs ++ [current_doc], kept, total)
          end
        else (docs, current_doc, total) in
      let current_doc := current_doc ++ [d] in
      merge_from separator_len splits docs current_doc
        (total + len + (if 1 <? length current_doc then separator_len else 0))
  end.

Definition merged_pieces (splits : list string) (separator : string)
  : list (list string) :=
  merge_from (String.length separator) splits [] [] 0.

(** [_merge_splits(splits, separator)]: every list of pieces is joined and
    stripped, and dropped when nothing is left of it. *)
Definition merge_splits (splits : list string) (separator : string) : list string :=
  omap (λ pieces, join_docs pieces separator) (merged_pieces splits separator).

(** The loop of [_split_text] over the pieces: short pieces are collected
    and merged, a piece of [chunk_size] or more is split further with the
    separators that remain, or kept whole when none remains. *)
Fixpoint gather (split_further : option (string → list string))
    (good_splits : list string) (splits : list string) : list string :=
  match splits with
  | [] =>
      match good_splits with
      | [] => []
      | _ :: _ => merge_splits good_splits ""
      end
  | s :: splits =>
      if String.length s <? chunk_size then gather split_further (good_splits ++ [s]) splits
      else
        match good_splits with
        | [] => []
        | _ :: _ => merge_splits good_splits ""
        end ++
        match split_further with
        | None => [s]
        | Some further => further s
        end ++
        gather split_further [] splits
  end.

(** [_split_text(text, separators)]: the first separator found in the text
    is used, and the last one when none is found. *)
Fixpoint split_text_with (separators : list string) (text : string) : list string :=
  match separators with
  | [] => []
  | separator :: new_separators =>
      if bool_decide (separator = "") then
        gather None [] (split_text_with_regex text separator)
      else if contains separator text then
        gather (match new_separators with
                | [] => None
                | _ :: _ => Some (split_text_with new_separators)
                end)
               [] (split_text_with_regex text separator)
      else
        match new_separators with
        | [] => gather None [] (split_text_with_regex text separator)
        | _ :: _ => split_text_with new_separators text
        end
  end.

End splitter.

(** [RecursiveCharacterTextSplitter(...).split_text(text)] *)
Definition split_text (py : str_methods) (s : splitter) (text : string)
  : list string :=
  split_text_with (strip py) (chunk_size s)
    (default DEFAULT_CHUNK_OVERLAP (chunk_overlap s))
    (match separators s with [] => DEFAULT_SEPARATORS | _ :: _ => separators s end)
    text.

End TextSplitter.

(** The number of characters two neighbouring chunks have in common: the
    length of the longest end of [a] that is also a beginning of [b]. *)
Fixpoint shared_upto (n : nat) (a b : string) : nat :=
  match n with
  | 0 => 0
  | S n' =>
      if String.prefix (substring (String.length a - n) n a) b then n
      else shared_upto n' a b
  end.

Definition shared (a b : string) : nat :=
  shared_upto (String.length a `min` String.length b) a b.



(** Collaborators with the splitter above: a text of 300 four-letter words
    behind every URL, and a loader that gives one document with the
    content of the file, whatever it is. *)
Module DemoSplit.

Definition text : string :=
  join " " ((λ i, "w" +:+ pretty i) <$> seq 100 300).

Definition env : collaborators := {|
  groq_model := None;
  url_load := λ urls, (λ u, Demo.doc text u) <$> urls;
  path_suffix_lower := Demo.suffix;
  save_tmp := λ _, TmpSaved;
  file_load := λ _ tmp_path f,
    Ok [Demo.doc (string_of_list_byte (getvalue f)) ("/tmp/tmp" +:+ pretty tmp_path)];
  unlink_ok := λ _, true;
  split_text := TextSplitter.split_text DemoStr.py;
  uuid4 := uuid4 Demo.env;
  retrieve := retrieve Demo.env;
  llm_invoke := llm_invoke Demo.env
|}.

Definition words : uploaded_file :=
  {| name := "words.txt"; getvalue := list_byte_of_string text |}.

(** The texts of the chunks a run handed to [add_documents]. *)
Definition added_texts (w : world) : list string :=
  mjoin (omap (λ c, match c with
                   | CallAddDocuments docs _ => Some (page_content <$> docs)
                   | _ => None
                   end) (calls w)).

End DemoSplit.

(** ** Library calls that raise

    The embedding above follows the runs in which every call into a
    library returns.  Each of these calls may raise instead; [rag.py]
    catches nothing around them outside the per-file [try] of
    [process_documents], so the exception ends the generator or the query
    and reaches the front end.  [Raising] embeds [initialize_components],
    [process_urls] iterated by a [for] loop, [generate_answer] and their
    callers in [api.py] and [main.py] with these exits. *)

Module Raising.

(** Where the module calls into a library: the two constructors of
    [initialize_components] ([HuggingFaceEmbeddings] and [Chroma] count as
    one site) and the calls that are logged. *)
Inductive site :=
| NewChatGroq
| NewChroma
| Calling (c : call).

(** [F p w = Some e]: the call at [p], made in the world [w], raises [e]. *)
Definition faults := site → world → option exn.

Definition no_faults : faults := λ _ _, None.

(** A client that refuses an empty batch, as [Chroma.add_documents] does
    with its [ValueError] for an empty list of identifiers. *)
Definition empty_add_refused : faults :=
  λ p _, match p with
         | Calling (CallAddDocuments _ []) => Some (Exception "ValueError")
         | _ => None
         end.

(** The embedding computation behind the retriever fails with a
    [RuntimeError]. *)
Definition retriever_runtime_error : faults :=
  λ p _, match p with
         | Calling (CallRetrieve _) => Some (RuntimeError "device error")
         | _ => None
         end.

Definition is_add (p : site) : bool :=
  match p with Calling (CallAddDocuments _ _) => true | _ => false end.

Section rag.
Variable E : collaborators.
Variable F : faults.

(** [initialize_components]: a constructor that raises leaves its global
    [None]. *)
Definition initialize_components (w : world) : option exn * world :=
  let '(raised, w1) :=
    match llm w with
    | None =>
        match F NewChatGroq w with
        | Some e => (Some e, w)
        | None =>
            (None,
             set_llm (Some {| model := default "llama-3.3-70b-versatile" (groq_model E);
                              temperature_tenths := 9;
                              max_tokens := 500 |}) w)
        end
    | Some _ => (None, w)
    end in
  match raised with
  | Some e => (Some e, w1)
  | None =>
      match vector_store w1 with
      | None =>
          match F NewChroma w1 with
          | Some e => (Some e, w1)
          | None =>
              (None,
               set_vector_store (Some {| collection_name := COLLECTION_NAME;
                                         embedding_function := EMBEDDING_MODEL;
                                         persist_directory := VECTORSTORE_DIR |}) w1)
          end
      | Some _ => (None, w1)
      end
  end.

(** [generate_answer]: besides its own guard, whatever the initialisation,
    the retriever or the model raises leaves the function. *)
Definition generate_answer (query : string) (w : world)
  : result (string * string) * world :=
  let '(raised, w1) := match vector_store w with
                       | None => initialize_components w
                       | Some _ => (None, w)
                       end in
  match raised with
  | Some e => (Raise e, w1)
  | None =>
      match vector_store w1 with
      | None =>
          (Raise (RuntimeError
             "Vector database is not initialized. Please process URLs or documents first."),
           w1)
      | Some _ =>
          let w2 := record_call (CallRetrieve query) w1 in
          match F (Calling (CallRetrieve query)) w1 with
          | Some e => (Raise e, w2)
          | None =>
              let docs := retrieve E (collection w1) query in
              let messages := format_messages (context_text docs) query in
              match llm w2 with
              | None =>
                  (Raise (Exception "'NoneType' object has no attribute 'invoke'"), w2)
              | Some _ =>
                  let w3 := record_call (CallLlm messages)
                              (set_llm_calls (S (llm_calls w2)) w2) in
                  match F (Calling (CallLlm messages)) w2 with
                  | Some e => (Raise e, w3)
                  | None =>
                      let response := llm_invoke E (llm_calls w2) messages in
                      (Ok (response_text response, extract_sources docs), w3)
                  end
              end
          end
      end
  end.

(** [for status in process_urls(urls)]: the statuses yielded, the
    exception that ended the loop if one did, and the world left behind.
    A call that raises is logged and has no effect. *)
Definition process_urls_run (urls : list string) (w : world)
  : list string * option exn * world :=
  let yielded := ["Initializing Components"] in
  match initialize_components w with
  | (Some e, w) => (yielded, Some e, w)
  | (None, w) =>
  let yielded := yielded ++ ["Resetting vector store...✅"] in
  match F (Calling CallResetCollection) w with
  | Some e => (yielded, Some e, record_call CallResetCollection w)
  | None =>
  let w := reset_collection w in
  let yielded := yielded ++ ["Loading data...✅"] in
  match F (Calling (CallLoadUrls urls)) w with
  | Some e => (yielded, Some e, record_call (CallLoadUrls urls) w)
  | None =>
  let data := url_load E urls in
  let w := record_call (CallLoadUrls urls) w in
  let yielded := yielded ++ ["Splitting text into chunks...✅"] in
  match F (Calling (CallSplit urls_splitter data)) w with
  | Some e => (yielded, Some e, record_call (CallSplit urls_splitter data) w)
  | None =>
  let docs := split_documents (split_text E urls_splitter) data in
  let w := record_call (CallSplit urls_splitter data) w in
  let yielded := yielded ++ ["Add chunks to vector database...✅"] in
  let '(uuids, w) := draw_uuids E (length docs) w in
  match F (Calling (CallAddDocuments docs uuids)) w with
  | Some e => (yielded, Some e, record_call (CallAddDocuments docs uuids) w)
  | None =>
  let w := add_documents docs uuids w in
  (yielded ++ ["Done adding docs to vector database...✅"], None, w)
  end end end end end.

(** [process_documents] from the end of its [for] loop: the clean-up, the
    empty-corpus check, and the splitting and adding that follow it with
    nothing around them to catch an exception. *)
Definition finish (all_docs : list Document) (tmp_paths : list nat) (w : world)
  : list string * option exn * world :=
  let w := clean_up E tmp_paths w in
  match all_docs with
  | [] => ([no_documents_msg], None, w)
  | _ :: _ =>
  let yielded := [splitting_msg all_docs] in
  match F (Calling (CallSplit documents_splitter all_docs)) w with
  | Some e => (yielded, Some e, record_call (CallSplit documents_splitter all_docs) w)
  | None =>
  let split_docs := split_documents (split_text E documents_splitter) all_docs in
  let w := record_call (CallSplit documents_splitter all_docs) w in
  let yielded :=
    yielded ++ [created_msg split_docs; "Adding chunks to vector database...✅"] in
  let '(uuids, w) := draw_uuids E (length split_docs) w in
  match F (Calling (CallAddDocuments split_docs uuids)) w with
  | Some e => (yielded, Some e, record_call (CallAddDocuments split_docs uuids) w)
  | None =>
  let w := add_documents split_docs uuids w in
  (yielded ++ [done_msg split_docs], None, w)
  end end end.

(** [for status in process_documents(files)].  What a loader or the
    temporary copy of a file raises is caught inside the loop and is part
    of [load_files]. *)
Definition process_documents_run (files : list uploaded_file) (w : world)
  : list string * option exn * world :=
  match initialize_components w with
  | (Some e, w) => (["Initializing Components"], Some e, w)
  | (None, w) =>
  match F (Calling CallResetCollection) w with
  | Some e =>
      (["Initializing Components"; "Resetting vector store...✅"], Some e,
       record_call CallResetCollection w)
  | None =>
  let w := reset_collection w in
  let '(reports, all_docs, tmp_paths, w) := load_files E files [] [] w in
  let '(closing, raised, w) := finish all_docs tmp_paths w in
  ("Initializing Components" :: "Resetting vector store...✅" :: reports ++ closing,
   raised, w)
  end end.

Variable py : str_methods.

(** [api.py]: [process_documents_endpoint] with its [except Exception]
    arm. *)
Definition process_documents_endpoint (files : list Api.UploadFile) (w : world)
  : Api.response Api.URLResponse * world :=
  match files with
  | [] => (Api.HTTPException 400 "At least one file is required", w)
  | _ :: _ =>
      match process_documents_run (Api.file_wrappers files) w with
      | (status_messages, None, w) =>
          let success := existsb success_marker status_messages in
          let error_occurred := existsb (error_marker py) status_messages in
          if success && negb error_occurred then
            (Api.Respond {| Api.success := true;
                            Api.message := "Documents processed successfully";
                            Api.status_messages := status_messages |}, w)
          else
            (Api.Respond
               {| Api.success := false;
                  Api.message :=
                    "Document processing failed. Check status_messages for details.";
                  Api.status_messages := status_messages |}, w)
      | (_, Some e, w) =>
          (Api.HTTPException 500 ("Error processing documents: " +:+ str e), w)
      end
  end.

(** [api.py]: [process_urls_endpoint] with its [except Exception] arm. *)
Definition process_urls_endpoint (urls : list string) (w : world)
  : Api.response Api.URLResponse * world :=
  match urls with
  | [] => (Api.HTTPException 400 "At least one URL is required", w)
  | _ :: _ =>
      match process_urls_run urls w with
      | (status_messages, None, w) =>
          (Api.Respond {| Api.success := true;
                          Api.message := "URLs processed successfully";
                          Api.status_messages := status_messages |}, w)
      | (_, Some e, w) =>
          (Api.HTTPException 500 ("Error processing URLs: " +:+ str e), w)
      end
  end.

(** [api.py]: [query_endpoint]. *)
Definition query_endpoint (query : string) (w : world)
  : Api.response Api.QueryResponse * world :=
  if bool_decide (query = "") || bool_decide (strip py query = "") then
    (Api.HTTPException 400 "Query cannot be empty", w)
  else
    match generate_answer query w with
    | (Ok (answer, sources), w) =>
        (Api.Respond {| Api.answer := answer; Api.sources := sources |}, w)
    | (Raise (RuntimeError _), w) =>
        (Api.HTTPException 400
           "Vector database is not initialized. Please process URLs or documents first.",
         w)
    | (Raise (Exception e), w) =>
        (Api.HTTPException 500 ("Error generating answer: " +:+ e), w)
    end.

(** [main.py]: the "Process URLs" button; nothing catches what the run
    raises, and the lines after the loop are not reached then. *)
Definition process_urls_button (url1 url2 url3 : string)
    (st : Ui.session_state) (w : world) : Ui.shown * Ui.session_state * world :=
  let urls := filter (λ url, url ≠ "") [url1; url2; url3] in
  match urls with
  | [] => (Ui.ErrorBox "You must provide at least one valid URL", st, w)
  | _ :: _ =>
      match process_urls_run urls w with
      | (_, None, w) =>
          (Ui.SuccessBox "URLs processed successfully!",
           {| Ui.docs_processed := false; Ui.urls_processed := true |}, w)
      | (_, Some e, w) => (Ui.Uncaught e, st, w)
      end
  end.

(** [main.py]: the question box of the URL tab. *)
Definition ask_urls_tab (query1 : string) (w : world) : Ui.shown * world :=
  if bool_decide (query1 = "") then (Ui.Nothing, w)
  else
    match generate_answer query1 w with
    | (Ok (answer, sources), w) => (Ui.Answer answer (Ui.source_bullets py sources), w)
    | (Raise (RuntimeError _), w) => (Ui.ErrorBox "You must process URLs first", w)
    | (Raise (Exception e), w) => (Ui.Uncaught (Exception e), w)
    end.

(** [main.py]: the question box of the documents tab. *)
Definition ask_documents_tab (query2 : string) (st : Ui.session_state) (w : world)
  : Ui.shown * world :=
  if bool_decide (query2 = "") then (Ui.Nothing, w)
  else
    match generate_answer query2 w with
    | (Ok (answer, sources), w) => (Ui.Answer answer (Ui.source_bullets py sources), w)
    | (Raise (RuntimeError msg), w) =>
        if Ui.docs_processed st then (Ui.ErrorBox ("Error: " +:+ msg), w)
        else
          (Ui.ErrorBox
             "You must process documents first. Please upload and process documents before asking questions.",
           w)
    | (Raise (Exception e), w) => (Ui.ErrorBox ("An error occurred: " +:+ e), w)
    end.

End rag.

End Raising.

(** * Properties *)

(** ** The query path *)

(** Membership in a list that has been computed. *)
Ltac find_in_list :=
  first [ apply list_elem_of_here
        | apply list_elem_of_further; find_in_list ].

(** Case analysis on the two globals that [initialize_components] tests. *)
Ltac init_cases w :=
  unfold initialize_components;
  destruct (llm w) eqn:?; simpl;
  destruct (vector_store w) eqn:?; simpl;
  repeat match goal with H : _ = _ |- _ => rewrite H end.

Section query.
Variable E : collaborators.

Lemma initialize_components_store w :
  is_Some (vector_store (initialize_components E w)).
Proof. init_cases w; by eexists. Qed.

Lemma initialize_components_llm w :
  is_Some (llm (initialize_components E w)).
Proof. init_cases w; by eexists. Qed.

Lemma initialize_components_collection w :
  collection (initialize_components E w) = collection w.
Proof. init_cases w; reflexivity. Qed.

Lemma initialize_components_llm_calls w :
  llm_calls (initialize_components E w) = llm_calls w.
Proof. init_cases w; reflexivity. Qed.

Lemma initialize_components_calls w :
  calls (initialize_components E w) = calls w.
Proof. init_cases w; reflexivity. Qed.

Lemma initialize_components_initialized w :
  initialized (initialize_components E w).
Proof. intros _. apply initialize_components_llm. Qed.

(** On an initialised process, or on one whose store handle is still
    [None], the query runs through and returns a pair. *)
Lemma generate_answer_returns query w :
  initialized w →
  (generate_answer E query w).1 =
    let docs := retrieve E (collection w) query in
    Ok (response_text
          (llm_invoke E (llm_calls w) (format_messages (context_text docs) query)),
        extract_sources docs).
Proof.
  intros Hw. unfold generate_answer.
  destruct (vector_store w) as [vs|] eqn:Hvs.
  - rewrite Hvs. simpl.
    destruct (Hw (mk_is_Some _ _ Hvs)) as [c ->]. reflexivity.
  - destruct (initialize_components_store w) as [vs' Hvs'].
    destruct (initialize_components_llm w) as [c Hc].
    rewrite Hvs'. simpl. rewrite Hc. simpl.
    rewrite initialize_components_collection, initialize_components_llm_calls.
    reflexivity.
Qed.

Lemma initialized_fresh_process persisted tmp :
  initialized (fresh_process persisted tmp).
Proof. intros [h Hh]. discriminate Hh. Qed.

Lemma join_blank_line_separated texts :
  join (LF +:+ LF) texts = blank_line_separated texts.
Proof.
  induction texts as [|t rest IH]; [reflexivity|].
  destruct rest as [|t' rest]; [reflexivity|].
  change (join (LF +:+ LF) (t :: t' :: rest))
    with (t +:+ (LF +:+ LF) +:+ join (LF +:+ LF) (t' :: rest)).
  rewrite IH. reflexivity.
Qed.

Lemma elem_of_collect_sources_from (docs : list retrieved) (acc : gset string) s :
  s ∈ foldl (λ source_urls doc,
               match doc_metadata doc !! "source" with
               | Some s => source_urls ∪ {[ s ]}
               | None => source_urls
               end) acc docs
  ↔ s ∈ acc ∨ ∃ d, d ∈ docs ∧ doc_metadata d !! "source" = Some s.
Proof.
  revert acc. induction docs as [|d docs IH]; intros acc; simpl.
  - split; [auto|]. intros [?|(d & Hd & _)]; [done|]. by apply elem_of_nil in Hd.
  - rewrite IH. split.
    + intros [Hacc|(d' & Hd' & Hs)].
      * destruct (doc_metadata d !! "source") as [s'|] eqn:Hsrc; [|auto].
        apply elem_of_union in Hacc as [?|Hs]; [auto|].
        apply elem_of_singleton in Hs as ->.
        right. exists d. split; [left|done].
      * right. exists d'. split; [by right|done].
    + intros [Hacc|(d' & Hd' & Hs)].
      * left. destruct (doc_metadata d !! "source"); [|done].
        apply elem_of_union. by left.
      * apply elem_of_cons in Hd' as [->|Hd'].
        -- left. rewrite Hs. apply elem_of_union. right. by apply elem_of_singleton.
        -- right. eauto.
Qed.

Lemma elem_of_collect_sources (docs : list retrieved) s :
  s ∈ collect_sources docs
  ↔ ∃ d, d ∈ docs ∧ doc_metadata d !! "source" = Some s.
Proof.
  unfold collect_sources. rewrite elem_of_collect_sources_from.
  split; [intros [H|H]; [set_solver|done]|auto].
Qed.


Lemma sources_string_sorted (source_urls : gset string) :
  sources_string source_urls = join LF (sorted source_urls).
Proof.
  unfold sources_string. case_decide as He; [|done].
  subst. unfold sorted. rewrite elements_empty. reflexivity.
Qed.

Lemma elem_of_sorted (source_urls : gset string) s :
  s ∈ sorted source_urls ↔ s ∈ source_urls.
Proof.
  unfold sorted. rewrite merge_sort_Permutation. apply elem_of_elements.
Qed.



Lemma generate_answer_calls query w :
  initialized w →
  calls (generate_answer E query w).2 =
    calls w ++
    [CallRetrieve query;
     CallLlm (format_messages (context_text (retrieve E (collection w) query)) query)].
Proof.
  intros Hw. unfold generate_answer.
  destruct (vector_store w) as [vs|] eqn:Hvs.
  - rewrite Hvs. simpl.
    destruct (Hw (mk_is_Some _ _ Hvs)) as [c ->]. simpl.
    by rewrite <- app_assoc.
  - destruct (initialize_components_store w) as [vs' Hvs'].
    destruct (initialize_components_llm w) as [c Hc].
    rewrite Hvs'. simpl. rewrite Hc. simpl.
    rewrite initialize_components_collection, initialize_components_calls.
    by rewrite <- app_assoc.
Qed.

End query.

(** C1.  On a process that has just started, with both globals still
    [None], [generate_answer] does not raise: it initialises the components
    itself and returns the model's reply together with the sources of
    whatever the collection on disk gives back for the query.  From no
    world at all does it raise the [RuntimeError] of its guard. *)
Theorem generate_answer_fresh_process E persisted tmp query :
  (generate_answer E query (fresh_process persisted tmp)).1 =
    Ok (response_text
          (llm_invoke E 0
             (format_messages (context_text (retrieve E persisted query)) query)),
        extract_sources (retrieve E persisted query))
  ∧ ∀ w msg, (generate_answer E query w).1 ≠ Raise (RuntimeError msg).
Proof.
  split.
  - apply (generate_answer_returns E query (fresh_process persisted tmp)).
    apply initialized_fresh_process.
  - intros w msg. unfold generate_answer.
    destruct (vector_store w) as [vs|] eqn:Hvs.
    + rewrite Hvs. simpl. destruct (llm w); discriminate.
    + destruct (initialize_components_store E w) as [vs' Hvs'].
      rewrite Hvs'. simpl.
      destruct (llm (initialize_components E w)); discriminate.
Qed.

Example generate_answer_fresh_process_demo :
  (generate_answer Demo.env "anything" Demo.start).1 = Ok ("42", "").
Proof. vm_compute. reflexivity. Qed.

(** C10.  [generate_answer] leaves the stored chunks as they are: the
    collection, with its identifiers, texts and metadata, is the same
    after the query as before it, and a store handle that was set is kept. *)
Theorem generate_answer_preserves_collection E query w :
  collection (generate_answer E query w).2 = collection w
  ∧ match vector_store w with
    | Some h => vector_store (generate_answer E query w).2 = Some h
    | None => True
    end.
Proof.
  unfold generate_answer.
  destruct (vector_store w) as [vs|] eqn:Hvs.
  - rewrite Hvs. simpl. destruct (llm w); simpl; auto.
  - destruct (initialize_components_store E w) as [vs' Hvs'].
    rewrite Hvs'. simpl.
    destruct (llm (initialize_components E w)); simpl;
      auto using initialize_components_collection.
Qed.

(** C8.  The context put into the prompt is the [page_content] of the
    retrieved items, in retrieval order, with one blank line between
    neighbours (an item without that attribute contributes the empty
    string); the one message sent to the model is the template text below
    with that context after [Context:] and the question after [Question:];
    the answer returned is the content of the model's response, and the
    empty string when the response is [None] or has no content.  When the
    retriever hands back stored documents, the texts are their
    [page_content] fields. *)
Theorem generate_answer_context_and_answer E query w :
  initialized w →
  let docs := retrieve E (collection w) query in
  let texts :=
    (λ d, match d with
          | DocObject (Some text) _ => text
          | DocObject None _ | DocDict _ => ""
          end) <$> docs in
  let prompt :=
    LF +:+
    "        You are a helpful research assistant." +:+ LF +:+
    "        Answer the question using only the provided context." +:+ LF +:+
    "        If the answer is not contained in the context, reply:" +:+ LF +:+
    "        " +:+ DQUOTE +:+
      "I don't have enough information to answer this question." +:+ DQUOTE +:+ LF +:+
    LF +:+
    "        Context:" +:+ LF +:+
    "        " +:+ blank_line_separated texts +:+ LF +:+
    LF +:+
    "        Question: " +:+ query +:+ LF +:+
    LF +:+
    "        Answer (concise):" +:+ LF +:+
    "        " in
  last (calls (generate_answer E query w).2) = Some (CallLlm prompt)
  ∧ (∃ sources,
      (generate_answer E query w).1 =
        Ok (match llm_invoke E (llm_calls w) prompt with
            | Some (Some content) => content
            | Some None | None => ""
            end, sources))
  ∧ (∀ stored, docs = of_document <$> stored → texts = page_content <$> stored).
Proof.
  intros Hw docs texts prompt.
  assert (texts = doc_text <$> docs) as Htexts.
  { subst texts. apply map_ext. by intros [[?|] ?|?]. }
  assert (prompt = format_messages (context_text docs) query) as Hprompt.
  { subst prompt. rewrite Htexts. unfold context_text.
    rewrite join_blank_line_separated. reflexivity. }
  rewrite Hprompt. subst docs.
  split; [|split].
  - rewrite generate_answer_calls by done.
    rewrite last_app. reflexivity.
  - eexists. rewrite generate_answer_returns by done. simpl.
    unfold response_text.
    destruct (llm_invoke E (llm_calls w) _) as [[c|]|]; reflexivity.
  - intros stored Hstored. rewrite Htexts, Hstored.
    rewrite <- list_fmap_compose. reflexivity.
Qed.



(** ** The ingestion paths *)

Section ingestion.
Variable E : collaborators.

Lemma calls_since_app w w' (cs : list call) :
  calls w' = calls w ++ cs → calls_since w w' = cs.
Proof. intros H. unfold calls_since. rewrite H. apply drop_app_length. Qed.

(** Iterating [process_urls] to the end is [urls_run]. *)
Lemma run_urls_urls_run urls w :
  run_urls E urls w = ((urls_run E urls w).1, UrlsReturned, (urls_run E urls w).2).
Proof. reflexivity. Qed.

Lemma urls_run_calls urls w :
  let data := url_load E urls in
  let docs := split_documents (split_text E urls_splitter) data in
  calls (urls_run E urls w).2 =
    calls w ++
    [CallResetCollection; CallLoadUrls urls; CallSplit urls_splitter data;
     CallAddDocuments docs (draw_uuids E (length docs) w).1].
Proof.
  simpl. rewrite initialize_components_calls.
  rewrite <- !app_assoc. simpl. repeat f_equal.
  init_cases w; reflexivity.
Qed.

Lemma take_S {G} (next : G → world → option string * G * world) n g w :
  take next (S n) g w =
    match next g w with
    | (None, g', w') => ([], g', w')
    | (Some status, g', w') =>
        let '(statuses, g'', w'') := take next n g' w' in
        (status :: statuses, g'', w'')
    end.
Proof. reflexivity. Qed.

(** Resumed after a file has been reported, with enough calls of [next]
    left, the generator runs the rest of the loop and the closing part. *)
Lemma take_loop_and_finish files all_docs tmp_paths w n :
  2 * length files + 5 ≤ n →
  take (docs_next E) n (DocsReported files all_docs tmp_paths) w =
    ((loop_and_finish E files all_docs tmp_paths w).1, DocsReturned,
     (loop_and_finish E files all_docs tmp_paths w).2).
Proof.
  revert all_docs tmp_paths w n.
  induction files as [|f rest IH]; intros all_docs tmp_paths w n Hn.
  - destruct n as [|[|[|[|[|n]]]]]; simpl in Hn; try lia.
    unfold loop_and_finish, finish. simpl.
    unfold loop_head, after_loop.
    destruct all_docs; reflexivity.
  - destruct n as [|[|n]]; simpl in Hn; try lia.
    unfold loop_and_finish. simpl load_files. unfold file_round, file_report, file_docs.
    rewrite take_S. cbn [docs_next loop_head].
    destruct (save_tmp E f) eqn:Hsave.
    + rewrite IH by lia. unfold loop_and_finish.
      destruct (load_files E rest all_docs tmp_paths w) as [[[reports ad] tp] w1].
      destruct (finish E ad tp w1) as [closing w2]. reflexivity.
    + cbn [create_tmp]. rewrite IH by lia. unfold loop_and_finish. simpl.
      destruct (load_files E rest all_docs tmp_paths _) as [[[reports ad] tp] w1].
      destruct (finish E ad tp w1) as [closing w2]. reflexivity.
    + cbn [create_tmp]. rewrite take_S. cbn [docs_next]. unfold load_one.
      destruct (file_load E _ _ f) as [[|d docs]|e] eqn:Hload.
      * rewrite IH by lia. unfold loop_and_finish. rewrite app_nil_r.
        destruct (load_files E rest all_docs _ _) as [[[reports ad] tp] w1].
        destruct (finish E ad tp w1) as [closing w2]. reflexivity.
      * rewrite IH by lia. unfold loop_and_finish.
        destruct (load_files E rest _ _ _) as [[[reports ad] tp] w1].
        destruct (finish E ad tp w1) as [closing w2]. reflexivity.
      * rewrite IH by lia. unfold loop_and_finish. rewrite app_nil_r.
        destruct (load_files E rest all_docs _ _) as [[[reports ad] tp] w1].
        destruct (finish E ad tp w1) as [closing w2]. reflexivity.
Qed.

Lemma take_resetting files w n :
  take (docs_next E) (S n) (DocsResetting files) w =
  take (docs_next E) (S n) (DocsReported files [] []) (reset_collection w).
Proof. reflexivity. Qed.

(** Iterating [process_documents] to the end is [documents_run]. *)
Lemma run_documents_documents_run files w :
  run_documents E files w =
    ((documents_run E files w).1, DocsReturned, (documents_run E files w).2).
Proof.
  unfold run_documents, process_documents, documents_run.
  replace (2 * length files + 8) with (S (S (S (2 * length files + 5)))) by lia.
  rewrite take_S. cbn [docs_next]. rewrite take_S. cbn [docs_next].
  rewrite take_resetting, take_loop_and_finish by lia.
  destruct (loop_and_finish E files [] [] _) as [statuses w']. reflexivity.
Qed.

(** One turn of the loop reports the file, extends [all_docs] by what the
    file gave, and hands a loader exactly the paths it adds to [tmp_paths]. *)
Lemma file_round_spec f all_docs tmp_paths w :
  ∃ p cs w',
    file_round E f all_docs tmp_paths w =
      (file_report E f p, all_docs ++ file_docs E f p,
       tmp_paths ++ loaded_paths cs, w')
    ∧ calls w' = calls w ++ cs
    ∧ Forall (λ c, is_load_file c = true) cs
    ∧ collection w' = collection w.
Proof.
  unfold file_round, file_docs, file_report.
  destruct (save_tmp E f) eqn:Hsave.
  - exists 0, [], w. rewrite !app_nil_r. auto.
  - exists 0, [], (create_tmp w).2. rewrite !app_nil_r. auto.
  - exists (fresh (tmp_files w)),
      [CallLoadFile (select_loader (file_extension E f)) (fresh (tmp_files w)) (name f)].
    eexists. split; [reflexivity|]. simpl. auto.
Qed.

Lemma load_files_spec files all_docs tmp_paths w :
  ∃ paths cs w',
    load_files E files all_docs tmp_paths w =
      (concat (zip_with (file_report E) files paths),
       all_docs ++ concat (zip_with (file_docs E) files paths),
       tmp_paths ++ loaded_paths cs, w')
    ∧ length paths = length files
    ∧ calls w' = calls w ++ cs
    ∧ Forall (λ c, is_load_file c = true) cs
    ∧ collection w' = collection w.
Proof.
  revert all_docs tmp_paths w.
  induction files as [|f rest IH]; intros all_docs tmp_paths w.
  - exists [], [], w. simpl. rewrite !app_nil_r. auto.
  - simpl load_files.
    destruct (file_round_spec f all_docs tmp_paths w)
      as (p & cs1 & w1 & -> & Hcalls1 & Hload1 & Hcoll1).
    destruct (IH (all_docs ++ file_docs E f p) (tmp_paths ++ loaded_paths cs1) w1)
      as (paths & cs2 & w2 & -> & Hlen & Hcalls2 & Hload2 & Hcoll2).
    exists (p :: paths), (cs1 ++ cs2), w2. simpl.
    unfold loaded_paths. rewrite omap_app. fold (loaded_paths cs1) (loaded_paths cs2).
    rewrite <- !app_assoc. split; [reflexivity|].
    split; [by rewrite Hlen|].
    split; [by rewrite Hcalls2, Hcalls1, <- app_assoc|].
    split; [by apply Forall_app|congruence].
Qed.

Lemma unlink_tmp_spec w p :
  ∃ cs, calls (unlink_tmp E w p) = calls w ++ cs
    ∧ Forall (λ c, is_unlink c = true) cs
    ∧ collection (unlink_tmp E w p) = collection w
    ∧ tmp_files (unlink_tmp E w p) ⊆ tmp_files w
    ∧ (unlink_ok E p = true → p ∉ tmp_files (unlink_tmp E w p)).
Proof.
  unfold unlink_tmp. case_decide as Hex.
  - destruct (unlink_ok E p) eqn:Hok; simpl.
    + exists [CallUnlink p]. repeat split; auto.
      * apply subseteq_difference_l. reflexivity.
      * rewrite elem_of_difference, elem_of_singleton. tauto.
    + exists [CallUnlink p]. repeat split; auto. discriminate.
  - exists []. rewrite app_nil_r. repeat split; auto.
Qed.

Lemma clean_up_spec tmp_paths w :
  ∃ cs, calls (clean_up E tmp_paths w) = calls w ++ cs
    ∧ Forall (λ c, is_unlink c = true) cs
    ∧ collection (clean_up E tmp_paths w) = collection w
    ∧ tmp_files (clean_up E tmp_paths w) ⊆ tmp_files w
    ∧ (∀ p, p ∈ tmp_paths → unlink_ok E p = true →
            p ∉ tmp_files (clean_up E tmp_paths w)).
Proof.
  unfold clean_up. revert w.
  induction tmp_paths as [|p rest IH]; intros w; simpl.
  - exists []. rewrite app_nil_r. repeat split; auto.
    intros p Hp. by apply elem_of_nil in Hp.
  - destruct (unlink_tmp_spec w p) as (cs1 & Hc1 & Hu1 & Hcoll1 & Hsub1 & Hgone1).
    destruct (IH (unlink_tmp E w p)) as (cs2 & Hc2 & Hu2 & Hcoll2 & Hsub2 & Hgone2).
    exists (cs1 ++ cs2).
    split; [by rewrite Hc2, Hc1, <- app_assoc|].
    split; [by apply Forall_app|].
    split; [congruence|].
    split; [set_solver|].
    intros q Hq Hok. apply elem_of_cons in Hq as [->|Hq].
    + intros Hin. apply (Hgone1 Hok). by apply Hsub2.
    + by apply Hgone2.
Qed.

Lemma finish_spec all_docs tmp_paths w :
  let chunks := split_documents (split_text E documents_splitter) all_docs in
  ∃ cs ids,
    (finish E all_docs tmp_paths w).1 = closing_statuses all_docs chunks
    ∧ calls (finish E all_docs tmp_paths w).2 =
        calls w ++ cs ++ closing_calls all_docs chunks ids
    ∧ Forall (λ c, is_unlink c = true) cs
    ∧ collection (finish E all_docs tmp_paths w).2 =
        store_chunks chunks ids (collection w)
    ∧ (∀ p, p ∈ tmp_paths → unlink_ok E p = true →
            p ∉ tmp_files (finish E all_docs tmp_paths w).2).
Proof.
  intros chunks. subst chunks. unfold finish.
  destruct (clean_up_spec tmp_paths w) as (cs & Hc & Hu & Hcoll & _ & Hgone).
  destruct all_docs as [|d all_docs].
  - exists cs, []. simpl. rewrite app_nil_r. auto.
  - set (chunks := split_documents _ _).
    exists cs, (draw_uuids E (length chunks) (clean_up E tmp_paths w)).1.
    simpl. rewrite Hc, Hcoll, <- !app_assoc. auto.
Qed.

Lemma reset_collection_calls w :
  calls (reset_collection w) = calls w ++ [CallResetCollection].
Proof. reflexivity. Qed.

Lemma reset_collection_collection w : collection (reset_collection w) = ∅.
Proof. reflexivity. Qed.

(** What a complete run of [process_documents] leaves behind. *)
Lemma documents_run_spec files w :
  let all_docs := loaded_documents E files w in
  let chunks := split_documents (split_text E documents_splitter) all_docs in
  ∃ paths load_cs unlink_cs ids,
    length paths = length files
    ∧ all_docs = concat (zip_with (file_docs E) files paths)
    ∧ (documents_run E files w).1 =
        ["Initializing Components"; "Resetting vector store...✅"] ++
        concat (zip_with (file_report E) files paths) ++
        closing_statuses all_docs chunks
    ∧ calls (documents_run E files w).2 =
        calls w ++ [CallResetCollection] ++ load_cs ++ unlink_cs ++
        closing_calls all_docs chunks ids
    ∧ Forall (λ c, is_load_file c = true) load_cs
    ∧ Forall (λ c, is_unlink c = true) unlink_cs
    ∧ collection (documents_run E files w).2 = store_chunks chunks ids ∅
    ∧ (∀ p, p ∈ loaded_paths load_cs → unlink_ok E p = true →
            p ∉ tmp_files (documents_run E files w).2).
Proof.
  intros all_docs chunks. subst all_docs chunks.
  unfold loaded_documents, documents_run, loop_and_finish.
  set (w0 := reset_collection (initialize_components E w)).
  destruct (load_files_spec files [] [] w0)
    as (paths & load_cs & w1 & -> & Hlen & Hcalls & Hload & Hcoll).
  simpl. set (all_docs := concat (zip_with (file_docs E) files paths)).
  destruct (finish_spec all_docs (loaded_paths load_cs) w1)
    as (unlink_cs & ids & Hst & Hfc & Hunl & Hfcoll & Hgone).
  destruct (finish E all_docs (loaded_paths load_cs) w1) as [closing w2].
  simpl in *. subst closing.
  exists paths, load_cs, unlink_cs, ids.
  split; [done|]. split; [done|]. split; [done|].
  split.
  { rewrite Hfc, Hcalls. subst w0. cbn.
    rewrite initialize_components_calls.
    by rewrite <- !app_assoc. }
  split; [done|]. split; [done|].
  split; [by rewrite Hfcoll, Hcoll|done].
Qed.

Lemma store_chunks_nil ids (c : gmap string Document) :
  store_chunks [] ids c = c.
Proof. unfold store_chunks. by destruct ids. Qed.

(** Whatever is found in the collection after [add] was either added by it
    or was there before. *)
Lemma store_chunks_lookup docs ids (c : gmap string Document) i d :
  store_chunks docs ids c !! i = Some d → d ∈ docs ∨ c !! i = Some d.
Proof.
  unfold store_chunks. intros H.
  assert ((∃ j, (j, d) ∈ zip ids docs) ∨ c !! i = Some d) as [[j Hj]|Hc];
    [|left; by eapply elem_of_zip_r|by right].
  revert c H. generalize (zip ids docs) as l.
  induction l as [|[j d'] l IH]; intros c H; simpl in H; [by right|].
  destruct (IH _ H) as [[k Hk]|Hins].
  - left. exists k. by right.
  - destruct (decide (j = i)) as [->|Hne].
    + rewrite lookup_insert_eq in Hins. injection Hins as ->.
      left. exists i. by left.
    + rewrite lookup_insert_ne in Hins by done. by right.
Qed.

(** When every file of the batch gives nothing, nothing is loaded. *)
Lemma loaded_documents_all_fail files w :
  (∀ f p, f ∈ files → file_docs E f p = []) →
  loaded_documents E files w = [].
Proof.
  intros Hfail.
  destruct (documents_run_spec files w) as (paths & _ & _ & _ & _ & -> & _).
  clear w. revert paths.
  induction files as [|f rest IH]; intros [|p paths]; try reflexivity.
  simpl. rewrite (Hfail f p) by left.
  apply IH. intros f' p' Hf'. apply Hfail. by right.
Qed.

(** *** The globals stay initialised

    Only [initialize_components] writes the two globals, so a world in
    which the chat model is set whenever the store handle is stays such
    through any number of steps of either generator. *)

Lemma initialized_same_globals w w' :
  same_globals w w' → initialized w → initialized w'.
Proof. intros [Hl Hv] Hw. unfold initialized. by rewrite Hl, Hv. Qed.

Lemma clean_up_same_globals tmp_paths w :
  same_globals w (clean_up E tmp_paths w).
Proof.
  unfold clean_up. revert w.
  induction tmp_paths as [|p rest IH]; intros w; simpl; [done|].
  destruct (IH (unlink_tmp E w p)) as [Hl Hv]. split.
  - rewrite Hl. unfold unlink_tmp.
    case_decide; [destruct (unlink_ok E p)|]; reflexivity.
  - rewrite Hv. unfold unlink_tmp.
    case_decide; [destruct (unlink_ok E p)|]; reflexivity.
Qed.

Lemma loop_head_same_globals files all_docs tmp_paths w :
  same_globals w (loop_head E files all_docs tmp_paths w).2.
Proof.
  destruct files as [|f rest]; simpl.
  - unfold after_loop.
    destruct (clean_up_same_globals tmp_paths w), all_docs; done.
  - destruct (save_tmp E f); done.
Qed.

Lemma docs_next_initialized g w :
  initialized w → initialized (docs_next E g w).2.
Proof.
  intros Hw. destruct g; simpl; try done.
  - apply initialize_components_initialized.
  - eapply initialized_same_globals; [apply loop_head_same_globals|done].
  - unfold load_one. destruct (file_load E _ _ f) as [[|d docs]|e]; done.
  - eapply initialized_same_globals; [apply loop_head_same_globals|done].
Qed.

Lemma urls_next_initialized g w :
  initialized w → initialized (urls_next E g w).2.
Proof.
  intros Hw. destruct g; simpl; try done.
  apply initialize_components_initialized.
Qed.

Lemma take_initialized {G} (next : G → world → option string * G * world) :
  (∀ g w, initialized w → initialized (next g w).2) →
  ∀ n g w, initialized w → initialized (take next n g w).2.
Proof.
  intros Hnext n. induction n as [|n IH]; intros g w Hw; [done|].
  rewrite take_S. specialize (Hnext g w Hw).
  destruct (next g w) as [[[status|] g'] w']; [|done].
  specialize (IH g' w' Hnext).
  by destruct (take next n g' w') as [[statuses g''] w''].
Qed.

End ingestion.

(** C4.  Both ingestion runs call [reset_collection] before any other call
    of the run, and after a run iterated to its end the collection is
    exactly the chunks of this run stored into an empty collection: every
    stored chunk is one of this run's chunks, whatever the collection held
    before. *)
Theorem ingestion_replaces_collection E w :
  (∀ urls,
     let chunks := split_documents (split_text E urls_splitter) (url_load E urls) in
     let w' := (run_urls E urls w).2 in
     ∃ later ids,
       calls_since w w' = CallResetCollection :: later
       ∧ collection w' = store_chunks chunks ids ∅
       ∧ ∀ i d, collection w' !! i = Some d → d ∈ chunks)
  ∧ (∀ files,
     let chunks := split_documents (split_text E documents_splitter)
                     (loaded_documents E files w) in
     let w' := (run_documents E files w).2 in
     ∃ later ids,
       calls_since w w' = CallResetCollection :: later
       ∧ collection w' = store_chunks chunks ids ∅
       ∧ ∀ i d, collection w' !! i = Some d → d ∈ chunks).
Proof.
  split.
  - intros urls chunks w'. subst w'.
    replace (run_urls E urls w).2 with (urls_run E urls w).2
      by (by rewrite run_urls_urls_run).
    eexists _, (draw_uuids E (length chunks) w).1.
    split; [apply calls_since_app, urls_run_calls|].
    assert (collection (urls_run E urls w).2 =
            store_chunks chunks (draw_uuids E (length chunks) w).1 ∅) as Hc.
    { simpl. do 2 f_equal. init_cases w; reflexivity. }
    split; [exact Hc|].
    intros i d Hi. rewrite Hc in Hi.
    apply store_chunks_lookup in Hi as [?|Hi]; [done|].
    by rewrite lookup_empty in Hi.
  - intros files chunks w'. subst w'.
    replace (run_documents E files w).2 with (documents_run E files w).2
      by (by rewrite run_documents_documents_run).
    destruct (documents_run_spec E files w)
      as (paths & load_cs & unlink_cs & ids & _ & _ & _ & Hcalls & _ & _ & Hc & _).
    eexists _, ids.
    split; [apply calls_since_app; rewrite Hcalls; reflexivity|].
    split; [exact Hc|].
    intros i d Hi. rewrite Hc in Hi.
    apply store_chunks_lookup in Hi as [?|Hi]; [done|].
    by rewrite lookup_empty in Hi.
Qed.

Lemma ingestion_replaces_collection_witness :
  ∃ later ids,
    calls_since Demo.loaded (run_documents Demo.env [Demo.notes] Demo.loaded).2 =
      CallResetCollection :: later
    ∧ collection (run_documents Demo.env [Demo.notes] Demo.loaded).2 =
        store_chunks
          (split_documents (split_text Demo.env documents_splitter)
             (loaded_documents Demo.env [Demo.notes] Demo.loaded)) ids ∅.
Proof.
  destruct (ingestion_replaces_collection Demo.env Demo.loaded) as [_ H].
  destruct (H [Demo.notes]) as (later & ids & Hcalls & Hcoll & _).
  exists later, ids. split; [exact Hcalls|exact Hcoll].
Defined.

(** C2.  When a document batch loads nothing ([all_docs] is empty at the
    end of the loop), the run's last status is the "No documents were
    successfully loaded" failure, the body returns right after it, and the
    run has called neither the splitter nor [add]: the collection stays
    empty. *)
Theorem process_documents_empty_corpus E files w :
  loaded_documents E files w = [] →
  let '(statuses, g, w') := run_documents E files w in
  last statuses = Some no_documents_msg
  ∧ g = DocsReturned
  ∧ Forall (λ c, is_split_or_add c = false) (calls_since w w')
  ∧ collection w' = ∅.
Proof.
  intros Hnone. rewrite run_documents_documents_run.
  destruct (documents_run_spec E files w)
    as (paths & load_cs & unlink_cs & ids & _ & _ & Hst & Hcalls & Hl & Hu & Hc & _).
  rewrite Hnone in *. simpl in Hst, Hcalls, Hc.
  split; [|split; [reflexivity|split]].
  - rewrite Hst.
    change (?a :: ?b :: ?l ++ [no_documents_msg])
      with ((a :: b :: l) ++ [no_documents_msg]).
    apply last_snoc.
  - rewrite (calls_since_app _ _ _ Hcalls).
    constructor; [reflexivity|].
    rewrite app_nil_r. apply Forall_app. split.
    + eapply Forall_impl; [exact Hl|]. by intros [].
    + eapply Forall_impl; [exact Hu|]. by intros [].
  - rewrite Hc. apply store_chunks_nil.
Qed.

Lemma process_documents_empty_corpus_witness :
  let '(statuses, g, w') :=
    run_documents Demo.env [Demo.picture; Demo.blank] Demo.loaded in
  last statuses = Some no_documents_msg
  ∧ g = DocsReturned
  ∧ Forall (λ c, is_split_or_add c = false) (calls_since Demo.loaded w')
  ∧ collection w' = ∅.
Proof.
  apply (process_documents_empty_corpus Demo.env [Demo.picture; Demo.blank]
           Demo.loaded).
  vm_compute. reflexivity.
Defined.

(** C7.  A run of [process_documents] iterated to its end reports the
    files one after the other, each by the statuses of [file_report]: a
    file whose temporary copy or whose loading raises gets its "Error
    loading" status, and the files after it are reported all the same.
    Every file of the batch has a status of its own. *)
Theorem process_documents_reports_every_file E files w :
  ∃ paths closing,
    length paths = length files
    ∧ (run_documents E files w).1.1 =
        ["Initializing Components"; "Resetting vector store...✅"] ++
        concat (zip_with (file_report E) files paths) ++ closing
    ∧ (run_documents E files w).1.2 = DocsReturned
    ∧ ∀ f, f ∈ files →
        loading_msg f ∈ (run_documents E files w).1.1
        ∨ ∃ e, error_msg f e ∈ (run_documents E files w).1.1.
Proof.
  rewrite run_documents_documents_run. cbn [fst snd].
  destruct (documents_run_spec E files w)
    as (paths & load_cs & unlink_cs & ids & Hlen & _ & Hst & _).
  eexists paths, _. split; [done|]. split; [exact Hst|]. split; [done|].
  intros f Hf. rewrite Hst.
  apply list_elem_of_lookup in Hf as [i Hi].
  destruct (lookup_lt_is_Some_2 paths i) as [p Hp].
  { rewrite Hlen. by eapply lookup_lt_Some. }
  assert (file_report E f p ∈ zip_with (file_report E) files paths) as Hrep.
  { apply list_elem_of_lookup. exists i.
    rewrite lookup_zip_with, Hi. simpl. by rewrite Hp. }
  assert (∀ s, s ∈ file_report E f p →
            s ∈ ["Initializing Components"; "Resetting vector store...✅"] ++
                concat (zip_with (file_report E) files paths) ++
                closing_statuses (loaded_documents E files w)
                  (split_documents (split_text E documents_splitter)
                     (loaded_documents E files w))) as Hin.
  { intros s Hs. apply elem_of_app. right. apply elem_of_app. left.
    apply list_elem_of_In, in_concat. exists (file_report E f p).
    split; by apply list_elem_of_In. }
  unfold file_report in Hin.
  destruct (save_tmp E f) as [e|e|].
  - right. exists e. apply Hin. by left.
  - right. exists e. apply Hin. by left.
  - left. apply Hin. by left.
Qed.

Lemma process_documents_reports_every_file_witness :
  loading_msg Demo.notes
    ∈ (run_documents Demo.env [Demo.picture; Demo.notes] Demo.start).1.1
  ∨ ∃ e, error_msg Demo.notes e
    ∈ (run_documents Demo.env [Demo.picture; Demo.notes] Demo.start).1.1.
Proof.
  destruct (process_documents_reports_every_file Demo.env
              [Demo.picture; Demo.notes] Demo.start)
    as (paths & closing & _ & _ & _ & H).
  apply H. right. left.
Defined.

(** Which part of a run's calls a given call can sit in. *)
Lemma documents_run_call_cases E files w c :
  c ∈ calls_since w (documents_run E files w).2 →
  ∃ load_cs ids,
    (∀ p, p ∈ loaded_paths load_cs → unlink_ok E p = true →
          p ∉ tmp_files (documents_run E files w).2)
    ∧ (c = CallResetCollection
       ∨ (c ∈ load_cs ∧ is_load_file c = true)
       ∨ is_unlink c = true
       ∨ c ∈ closing_calls (loaded_documents E files w)
               (split_documents (split_text E documents_splitter)
                  (loaded_documents E files w)) ids).
Proof.
  destruct (documents_run_spec E files w)
    as (paths & load_cs & unlink_cs & ids & _ & _ & _ & Hcalls & Hl & Hu & _ & Hgone).
  rewrite (calls_since_app _ _ _ Hcalls).
  intros Hc. exists load_cs, ids. split; [exact Hgone|].
  rewrite !elem_of_app in Hc. destruct Hc as [Hc|[Hc|[Hc|Hc]]].
  - left. apply list_elem_of_singleton in Hc. exact Hc.
  - right. left. split; [done|]. by eapply Forall_forall in Hl.
  - right. right. left. by eapply Forall_forall in Hu.
  - auto.
Qed.

(** *** Chunk overlap *)







Section text_splitter.
Variable chunk_size chunk_overlap separator_len : nat.






End text_splitter.






Example document_run_chunks :
  let chunks := DemoSplit.added_texts
                  (run_documents DemoSplit.env [DemoSplit.words] Demo.start).2 in
  String.length <$> chunks = [999; 699]
  ∧ (λ chunk, (substring 0 9 chunk, substring (String.length chunk - 9) 9 chunk))
      <$> chunks = [("w100 w101", "w298 w299"); ("w260 w261", "w398 w399")]
  ∧ zip_with shared chunks (drop 1 chunks) = [199].
Proof. vm_compute. repeat split. Qed.

Example url_run_chunks :
  let chunks := DemoSplit.added_texts
                  (run_urls DemoSplit.env ["https://example.com/a"] Demo.start).2 in
  String.length <$> chunks = [999; 699]
  ∧ zip_with shared chunks (drop 1 chunks) = [199].
Proof. vm_compute. repeat split. Qed.

(** C6.  After a run of [process_documents] iterated to its end, every
    temporary file that was handed to a loader is gone, whether the loader
    returned documents, returned nothing or raised, as long as the deletion
    itself did not fail. *)
Theorem process_documents_removes_tmp_files E files w loader p file :
  CallLoadFile loader p file ∈ calls_since w (run_documents E files w).2 →
  unlink_ok E p = true →
  p ∉ tmp_files (run_documents E files w).2.
Proof.
  rewrite run_documents_documents_run. cbn [snd]. intros Hc Hok.
  destruct (documents_run_call_cases E files w _ Hc)
    as (load_cs & ids & Hgone & [H|[[H _]|[H|H]]]); try discriminate H.
  - apply Hgone; [|done]. unfold loaded_paths.
    apply list_elem_of_omap. exists (CallLoadFile loader p file). done.
  - unfold closing_calls in H. destruct (loaded_documents E files w).
    + by apply elem_of_nil in H.
    + rewrite !elem_of_cons, elem_of_nil in H.
      destruct H as [H|[H|[]]]; discriminate H.
Qed.

Lemma process_documents_removes_tmp_files_witness :
  1 ∉ tmp_files (run_documents Demo.env [Demo.notes; Demo.picture] Demo.start).2.
Proof.
  apply (process_documents_removes_tmp_files Demo.env [Demo.notes; Demo.picture]
           Demo.start UnstructuredFileLoader 1 "pic.png").
  - vm_compute. find_in_list.
  - reflexivity.
Defined.

(** A consumer that takes four statuses of a one-file batch and then drops
    the generator leaves the body suspended after the file was loaded: the
    temporary file is still on disk. *)
Lemma process_documents_early_stop_keeps_tmp_file :
  ¬ (∀ n loader p file,
       let w' := (take (docs_next Demo.env) n
                    (process_documents [Demo.notes]) Demo.start).2 in
       CallLoadFile loader p file ∈ calls_since Demo.start w' →
       p ∉ tmp_files w').
Proof.
  intros H. specialize (H 4 TextLoader 0 "notes.txt"). cbv zeta in H.
  apply H.
  - vm_compute. find_in_list.
  - eapply bool_decide_unpack. vm_compute. exact I.
Qed.

Lemma initialized_demo_loaded : initialized Demo.loaded.
Proof. intros _. vm_compute. by eexists. Defined.

Lemma generate_answer_context_and_answer_witness :
  ∃ context sources,
    last (calls (generate_answer Demo.env "anything" Demo.loaded).2) =
      Some (CallLlm (format_messages context "anything"))
    ∧ contains "page at https://example.com/a" context = true
    ∧ contains "page at https://example.com/b" context = true
    ∧ (generate_answer Demo.env "anything" Demo.loaded).1 = Ok ("42", sources).
Proof.
  destruct (generate_answer_context_and_answer Demo.env "anything" Demo.loaded
              initialized_demo_loaded) as (Hlast & [sources H] & _).
  eexists _, sources. split; [exact Hlast|].
  split; [vm_compute; reflexivity|]. split; [vm_compute; reflexivity|]. exact H.
Defined.


(** ** Evaluation on the demo collaborators *)

Example generate_answer_after_urls :
  (generate_answer Demo.env "anything" Demo.loaded).1 =
    Ok ("42", "https://example.com/a" +:+ LF +:+ "https://example.com/b").
Proof. vm_compute. reflexivity. Qed.

Example run_documents_mixed_batch :
  (run_documents Demo.env [Demo.picture; Demo.notes; Demo.blank] Demo.start).1.1 =
    ["Initializing Components"; "Resetting vector store...✅";
     "Loading pic.png..."; "❌ Error loading pic.png: unsupported format";
     "Loading notes.txt..."; "✅ Loaded notes.txt (1 pages/chunks)";
     "Loading blank.txt..."; "⚠️ Warning: blank.txt loaded but contains no content";
     "Splitting 1 document(s) into chunks...✅";
     "Created 1 chunks from documents";
     "Adding chunks to vector database...✅";
     "✅ Done! Added 1 chunks to vector database. You can now ask questions."].
Proof. vm_compute. reflexivity. Qed.

Example take_four_of_one_file :
  (take (docs_next Demo.env) 4 (process_documents [Demo.notes]) Demo.start).1 =
    (["Initializing Components"; "Resetting vector store...✅";
      "Loading notes.txt..."; "✅ Loaded notes.txt (1 pages/chunks)"],
     DocsReported [] [Demo.doc "hello" "/tmp/tmp0"] [0]).
Proof. vm_compute. reflexivity. Qed.

(** * Further properties of the module and of its front ends *)

(** ** [initialize_components] and repeated questions *)

Section components.
Variable E : collaborators.

(** [initialize_components] builds each global at most once: a handle that
    is set is kept as it is, and a second call changes nothing. *)
Theorem initialize_components_idempotent w :
  initialize_components E (initialize_components E w) = initialize_components E w
  ∧ (∀ c, llm w = Some c → llm (initialize_components E w) = Some c)
  ∧ (∀ h, vector_store w = Some h →
          vector_store (initialize_components E w) = Some h)
  ∧ (is_Some (llm w) → is_Some (vector_store w) → initialize_components E w = w).
Proof.
  destruct w as [l v c t u n cs].
  unfold initialize_components; simpl.
  destruct l, v; simpl; repeat split; try done; by intros [? ?].
Qed.

Lemma generate_answer_world query w :
  initialized w →
  collection (generate_answer E query w).2 = collection w
  ∧ llm_calls (generate_answer E query w).2 = S (llm_calls w)
  ∧ initialized (generate_answer E query w).2.
Proof.
  intros Hw. unfold generate_answer.
  destruct (vector_store w) as [vs|] eqn:Hvs.
  - rewrite Hvs. simpl.
    destruct (Hw (mk_is_Some _ _ Hvs)) as [c Hc]. rewrite Hc. simpl.
    split; [done|split; [done|]]. intros _. simpl. rewrite Hc. by eexists.
  - destruct (initialize_components_store E w) as [vs' Hvs'].
    destruct (initialize_components_llm E w) as [c Hc].
    rewrite Hvs'. simpl. rewrite Hc. simpl.
    rewrite initialize_components_collection, initialize_components_llm_calls.
    split; [done|split; [done|]]. intros _. simpl. rewrite Hc. by eexists.
Qed.

(** Nothing is cached: the same question put twice is retrieved twice and
    sent to the model twice, with the same prompt; the second reply is the
    model's next draw. *)
Theorem generate_answer_twice query w :
  initialized w →
  let first := generate_answer E query w in
  let second := generate_answer E query first.2 in
  let docs := retrieve E (collection w) query in
  let prompt := format_messages (context_text docs) query in
  calls_since w second.2 =
    [CallRetrieve query; CallLlm prompt; CallRetrieve query; CallLlm prompt]
  ∧ first.1 =
      Ok (response_text (llm_invoke E (llm_calls w) prompt), extract_sources docs)
  ∧ second.1 =
      Ok (response_text (llm_invoke E (S (llm_calls w)) prompt), extract_sources docs).
Proof.
  intros Hw first second docs prompt. subst first second docs prompt.
  destruct (generate_answer_world query w Hw) as (Hcoll & Hn & Hw').
  split; [|split].
  - apply calls_since_app.
    rewrite (generate_answer_calls E query _ Hw'), Hcoll.
    rewrite (generate_answer_calls E query w Hw).
    by rewrite <- app_assoc.
  - by rewrite (generate_answer_returns E query w Hw).
  - rewrite (generate_answer_returns E query _ Hw'). simpl.
    by rewrite Hcoll, Hn.
Qed.

End components.

Lemma generate_answer_twice_witness :
  calls_since Demo.loaded
    (generate_answer Demo.env "rate?"
       (generate_answer Demo.env "rate?" Demo.loaded).2).2 =
    [CallRetrieve "rate?";
     CallLlm (format_messages
                (context_text (retrieve Demo.env (collection Demo.loaded) "rate?"))
                "rate?");
     CallRetrieve "rate?";
     CallLlm (format_messages
                (context_text (retrieve Demo.env (collection Demo.loaded) "rate?"))
                "rate?")].
Proof.
  apply (generate_answer_twice Demo.env "rate?" Demo.loaded).
  intros _. vm_compute. by eexists.
Defined.

(** ** Temporary files of a document run *)

Section temporary_files.
Variable E : collaborators.

Lemma create_tmp_spec w :
  ((create_tmp w).1 ∉ tmp_files w)
  ∧ tmp_files (create_tmp w).2 = {[ (create_tmp w).1 ]} ∪ tmp_files w.
Proof. split; [apply is_fresh|reflexivity]. Qed.

(** One turn of the loop only adds files, and the paths it starts to track
    are new ones that now exist. *)
Lemma file_round_tmp f all_docs tmp_paths w :
  ∃ new,
    (file_round E f all_docs tmp_paths w).1.2 = tmp_paths ++ new
    ∧ tmp_files w ⊆ tmp_files (file_round E f all_docs tmp_paths w).2
    ∧ (∀ p, p ∈ new →
         (p ∉ tmp_files w) ∧ p ∈ tmp_files (file_round E f all_docs tmp_paths w).2)
    ∧ ((∀ e, save_tmp E f ≠ TmpWriteFails e) →
         tmp_files (file_round E f all_docs tmp_paths w).2 =
           tmp_files w ∪ list_to_set new)
    ∧ (∀ e, save_tmp E f = TmpWriteFails e →
         new = [] ∧
         (∃ p, p ∈ tmp_files (file_round E f all_docs tmp_paths w).2
               ∧ (p ∉ tmp_files w))).
Proof.
  destruct (create_tmp_spec w) as [Hfresh Hfiles].
  unfold file_round. destruct (save_tmp E f) as [e|e|] eqn:Hsave; simpl.
  - exists []. rewrite app_nil_r.
    split; [done|]. split; [done|]. split; [|split].
    + intros p Hp. by apply elem_of_nil in Hp.
    + intros _. set_solver.
    + intros e' He'. discriminate He'.
  - exists []. rewrite app_nil_r.
    split; [done|]. split; [set_solver|]. split; [|split].
    + intros p Hp. by apply elem_of_nil in Hp.
    + intros H. by destruct (H e).
    + intros e' _. split; [done|].
      exists (fresh (tmp_files w)). split; [set_solver|done].
  - exists [fresh (tmp_files w)].
    split; [done|]. split; [set_solver|]. split; [|split].
    + intros p ->%list_elem_of_singleton. split; [done|set_solver].
    + intros _. set_solver.
    + intros e' He'. discriminate He'.
Qed.

Lemma load_files_tmp files all_docs tmp_paths w :
  ∃ new,
    (load_files E files all_docs tmp_paths w).1.2 = tmp_paths ++ new
    ∧ tmp_files w ⊆ tmp_files (load_files E files all_docs tmp_paths w).2
    ∧ (∀ p, p ∈ new →
         (p ∉ tmp_files w) ∧ p ∈ tmp_files (load_files E files all_docs tmp_paths w).2)
    ∧ ((∀ f e, f ∈ files → save_tmp E f ≠ TmpWriteFails e) →
         tmp_files (load_files E files all_docs tmp_paths w).2 =
           tmp_files w ∪ list_to_set new)
    ∧ (∀ f e, f ∈ files → save_tmp E f = TmpWriteFails e →
         ∃ p, p ∈ tmp_files (load_files E files all_docs tmp_paths w).2
              ∧ (p ∉ tmp_files w) ∧ (p ∉ new)).
Proof.
  revert all_docs tmp_paths w.
  induction files as [|f rest IH]; intros all_docs tmp_paths w.
  - exists []. simpl. rewrite app_nil_r.
    split; [done|]. split; [done|]. split; [|split].
    + intros p Hp. by apply elem_of_nil in Hp.
    + intros _. set_solver.
    + intros f e Hf. by apply elem_of_nil in Hf.
  - simpl load_files.
    destruct (file_round_tmp f all_docs tmp_paths w)
      as (new1 & Hp1 & Hsub1 & Hnew1 & Hex1 & Hleak1).
    destruct (file_round E f all_docs tmp_paths w) as [[[rep1 ad1] tp1] w1].
    simpl in Hp1, Hsub1, Hnew1, Hex1, Hleak1. subst tp1.
    destruct (IH ad1 (tmp_paths ++ new1) w1)
      as (new2 & Hp2 & Hsub2 & Hnew2 & Hex2 & Hleak2).
    destruct (load_files E rest ad1 (tmp_paths ++ new1) w1) as [[[rep2 ad2] tp2] w2].
    simpl in Hp2, Hsub2, Hnew2, Hex2, Hleak2. simpl. subst tp2.
    exists (new1 ++ new2). rewrite app_assoc.
    split; [done|]. split; [set_solver|]. split; [|split].
    + intros p [Hp|Hp]%elem_of_app.
      * destruct (Hnew1 p Hp). split; [done|set_solver].
      * destruct (Hnew2 p Hp). split; [set_solver|done].
    + intros Hok. rewrite Hex2, Hex1, list_to_set_app_L.
      * set_solver.
      * intros e. apply Hok. by left.
      * intros f' e Hf'. apply Hok. by right.
    + intros f' e [->|Hf']%elem_of_cons Hfail.
      * destruct (Hleak1 e Hfail) as (-> & p & Hin & Hout).
        exists p. split; [set_solver|]. split; [done|].
        simpl. intros Hp. by destruct (Hnew2 p Hp).
      * destruct (Hleak2 f' e Hf' Hfail) as (p & Hin & Hout & Hnot).
        exists p. split; [done|]. split; [set_solver|].
        intros [Hp|Hp]%elem_of_app; [|done].
        by destruct (Hnew1 p Hp).
Qed.

(** The clean-up loop deletes nothing but the paths it is given, and all of
    them when no deletion fails. *)
Lemma clean_up_tmp tmp_paths w :
  tmp_files w ∖ list_to_set tmp_paths ⊆ tmp_files (clean_up E tmp_paths w)
  ∧ tmp_files (clean_up E tmp_paths w) ⊆ tmp_files w
  ∧ ((∀ p, unlink_ok E p = true) →
       tmp_files (clean_up E tmp_paths w) = tmp_files w ∖ list_to_set tmp_paths).
Proof.
  unfold clean_up. revert w.
  induction tmp_paths as [|p rest IH]; intros w; simpl.
  - split; [set_solver|]. split; [done|]. intros _. set_solver.
  - destruct (IH (unlink_tmp E w p)) as (Hlow & Hup & Hex).
    assert (tmp_files w ∖ {[p]} ⊆ tmp_files (unlink_tmp E w p)
            ∧ tmp_files (unlink_tmp E w p) ⊆ tmp_files w
            ∧ (unlink_ok E p = true →
                 tmp_files (unlink_tmp E w p) = tmp_files w ∖ {[p]}))
      as (Hlow1 & Hup1 & Hex1).
    { unfold unlink_tmp. case_decide as Hin.
      - destruct (unlink_ok E p); simpl; set_solver.
      - set_solver. }
    split; [set_solver|]. split; [set_solver|].
    intros Hok. rewrite (Hex Hok), (Hex1 (Hok p)). set_solver.
Qed.

Lemma finish_tmp_files all_docs tmp_paths w :
  tmp_files (finish E all_docs tmp_paths w).2 = tmp_files (clean_up E tmp_paths w).
Proof. unfold finish. by destruct all_docs. Qed.

Lemma documents_run_tmp_files files w :
  let w0 := reset_collection (initialize_components E w) in
  tmp_files (documents_run E files w).2 =
    tmp_files (clean_up E (load_files E files [] [] w0).1.2
                 (load_files E files [] [] w0).2)
  ∧ tmp_files w0 = tmp_files w.
Proof.
  intros w0. split.
  - unfold documents_run, loop_and_finish. fold w0.
    destruct (load_files E files [] [] w0) as [[[reports ad] tp] w1]. simpl.
    rewrite <- finish_tmp_files with (all_docs := ad).
    by destruct (finish E ad tp w1).
  - subst w0. simpl. init_cases w; reflexivity.
Qed.

End temporary_files.

(** A document run never deletes a temporary file that was on disk before
    it started: what it removes is what it created itself. *)
Theorem process_documents_keeps_other_tmp_files E files w :
  tmp_files w ⊆ tmp_files (run_documents E files w).2.
Proof.
  rewrite run_documents_documents_run. cbn [snd].
  destruct (documents_run_tmp_files E files w) as [-> Hw0].
  set (w0 := reset_collection (initialize_components E w)) in *.
  destruct (load_files_tmp E files [] [] w0) as (new & Hp & Hsub & Hnew & _).
  destruct (clean_up_tmp E (load_files E files [] [] w0).1.2
              (load_files E files [] [] w0).2) as (Hlow & _).
  rewrite Hp in Hlow |- *. simpl in Hlow |- *.
  intros p Hin. apply Hlow. apply elem_of_difference. split.
  - apply Hsub. by rewrite Hw0.
  - rewrite elem_of_list_to_set. intros Hp'.
    destruct (Hnew p Hp') as [Hout _]. apply Hout. by rewrite Hw0.
Qed.

(** When no temporary copy fails half-way and no deletion fails, a document
    run iterated to its end leaves the temporary directory as it found it. *)
Theorem process_documents_no_tmp_left E files w :
  (∀ f e, f ∈ files → save_tmp E f ≠ TmpWriteFails e) →
  (∀ p, unlink_ok E p = true) →
  tmp_files (run_documents E files w).2 = tmp_files w.
Proof.
  intros Hsave Hunlink.
  rewrite run_documents_documents_run. cbn [snd].
  destruct (documents_run_tmp_files E files w) as [-> Hw0].
  set (w0 := reset_collection (initialize_components E w)) in *.
  destruct (load_files_tmp E files [] [] w0) as (new & Hp & _ & Hnew & Hex & _).
  destruct (clean_up_tmp E (load_files E files [] [] w0).1.2
              (load_files E files [] [] w0).2) as (_ & _ & Hclean).
  rewrite (Hclean Hunlink), Hp, (Hex Hsave), Hw0. simpl.
  apply set_eq. intros p. rewrite elem_of_difference, elem_of_union.
  split; [tauto|]. intros Hin. split; [by left|].
  rewrite elem_of_list_to_set. intros Hp'.
  destruct (Hnew p Hp') as [Hout _]. apply Hout. by rewrite Hw0.
Qed.

Lemma process_documents_no_tmp_left_witness :
  tmp_files (run_documents Demo.env [Demo.notes; Demo.picture; Demo.blank]
               Demo.start).2 = tmp_files Demo.start.
Proof.
  apply (process_documents_no_tmp_left Demo.env
           [Demo.notes; Demo.picture; Demo.blank] Demo.start).
  - intros f e Hf.
    repeat (apply elem_of_cons in Hf as [->|Hf]); [..|by apply elem_of_nil in Hf];
      vm_compute; discriminate.
  - reflexivity.
Defined.

(** A file whose temporary copy is created but cannot be written leaves
    that copy behind: it is not entered in [tmp_paths], so even a run
    iterated to its end does not delete it. *)
Theorem process_documents_write_failure_leaks E files w f e :
  f ∈ files →
  save_tmp E f = TmpWriteFails e →
  ∃ p, p ∈ tmp_files (run_documents E files w).2 ∧ p ∉ tmp_files w.
Proof.
  intros Hf Hfail.
  rewrite run_documents_documents_run. cbn [snd].
  destruct (documents_run_tmp_files E files w) as [-> Hw0].
  set (w0 := reset_collection (initialize_components E w)) in *.
  destruct (load_files_tmp E files [] [] w0) as (new & Hp & _ & _ & _ & Hleak).
  destruct (Hleak f e Hf Hfail) as (p & Hin & Hout & Hnot).
  destruct (clean_up_tmp E (load_files E files [] [] w0).1.2
              (load_files E files [] [] w0).2) as (Hlow & _).
  rewrite Hp in Hlow |- *. simpl in Hlow |- *.
  exists p. split; [|by rewrite <- Hw0].
  apply Hlow. apply elem_of_difference. split; [done|].
  by rewrite elem_of_list_to_set.
Qed.

Lemma process_documents_write_failure_leaks_witness :
  ∃ p, p ∈ tmp_files
             (run_documents Demo.env
                [Demo.notes; {| name := "locked.txt"; getvalue := [] |}]
                Demo.start).2
       ∧ p ∉ tmp_files Demo.start.
Proof.
  apply (process_documents_write_failure_leaks Demo.env
           [Demo.notes; {| name := "locked.txt"; getvalue := [] |}] Demo.start
           {| name := "locked.txt"; getvalue := [] |} (Exception "disk full")).
  - right. left.
  - reflexivity.
Defined.

(** ** What ends up in the collection *)

Section stored_chunks.
Variable E : collaborators.

Lemma store_chunks_nil_ids docs (c : gmap string Document) :
  store_chunks docs [] c = c.
Proof. reflexivity. Qed.

Lemma store_chunks_cons d docs i ids (c : gmap string Document) :
  store_chunks (d :: docs) (i :: ids) c = store_chunks docs ids (<[i := d]> c).
Proof. reflexivity. Qed.

(** Storing under identifiers other than [i] leaves the entry of [i]. *)
Lemma store_chunks_lookup_other docs ids (c : gmap string Document) i :
  i ∉ ids → store_chunks docs ids c !! i = c !! i.
Proof.
  revert docs c. induction ids as [|j ids IH]; intros docs c Hi.
  - by rewrite store_chunks_nil_ids.
  - destruct docs as [|d docs]; [by rewrite store_chunks_nil|].
    rewrite store_chunks_cons, IH by set_solver.
    apply lookup_insert_ne. set_solver.
Qed.

(** With pairwise distinct, unused identifiers every chunk gets an entry of
    its own, found again under its identifier. *)
Lemma store_chunks_distinct docs ids (c : gmap string Document) :
  NoDup ids →
  length ids = length docs →
  (∀ i, i ∈ ids → c !! i = None) →
  size (store_chunks docs ids c) = size c + length docs
  ∧ ∀ k i d, ids !! k = Some i → docs !! k = Some d →
             store_chunks docs ids c !! i = Some d.
Proof.
  revert docs c. induction ids as [|j ids IH]; intros docs c Hnd Hlen Hfree.
  - destruct docs; [|done]. rewrite store_chunks_nil. simpl.
    split; [lia|]. intros k i d Hk. by rewrite lookup_nil in Hk.
  - destruct docs as [|d0 docs]; [done|].
    apply NoDup_cons in Hnd as [Hj Hnd]. simpl in Hlen.
    rewrite store_chunks_cons.
    destruct (IH docs (<[j := d0]> c) Hnd) as [Hsize Hlook].
    { lia. }
    { intros i Hi. rewrite lookup_insert_ne by set_solver.
      apply Hfree. by right. }
    split.
    + rewrite Hsize, map_size_insert_None by (apply Hfree; by left).
      simpl. lia.
    + intros [|k] i d Hk Hd; simpl in Hk, Hd.
      * injection Hk as ->. injection Hd as ->.
        rewrite store_chunks_lookup_other by done.
        apply lookup_insert_eq.
      * eauto.
Qed.

Lemma draw_uuids_distinct n w :
  Inj (=) (=) (uuid4 E) →
  NoDup (draw_uuids E n w).1 ∧ length (draw_uuids E n w).1 = n.
Proof.
  intros Hinj. unfold draw_uuids. simpl. split.
  - apply NoDup_fmap_2; [|apply NoDup_seq].
    intros i j Hij. apply Hinj in Hij. lia.
  - by rewrite length_fmap, length_seq.
Qed.

Lemma urls_run_collection urls w :
  let chunks := split_documents (split_text E urls_splitter) (url_load E urls) in
  ∃ w', collection (urls_run E urls w).2 =
          store_chunks chunks (draw_uuids E (length chunks) w').1 ∅.
Proof.
  intros chunks. exists (initialize_components E w). reflexivity.
Qed.

Lemma documents_run_collection files w :
  let chunks := split_documents (split_text E documents_splitter)
                  (loaded_documents E files w) in
  ∃ w', collection (documents_run E files w).2 =
          store_chunks chunks (draw_uuids E (length chunks) w').1 ∅.
Proof.
  intros chunks. subst chunks.
  unfold loaded_documents, documents_run, loop_and_finish.
  set (w0 := reset_collection (initialize_components E w)).
  destruct (load_files_spec E files [] [] w0)
    as (paths & load_cs & w1 & -> & _ & _ & _ & Hcoll).
  simpl. set (all_docs := concat _).
  destruct (clean_up_spec E (loaded_paths load_cs) w1) as (cs & _ & _ & Hclean & _).
  unfold finish. destruct all_docs as [|d all_docs].
  - exists w. simpl. rewrite Hclean, Hcoll. reflexivity.
  - exists (clean_up E (loaded_paths load_cs) w1). simpl.
    rewrite Hclean, Hcoll. reflexivity.
Qed.

End stored_chunks.

(** When [uuid4] never repeats an identifier, a run iterated to its end
    without a library call raising leaves exactly one entry per chunk in
    the collection; for a document run whose documents give at least one
    chunk, the number announced in the closing "Done! Added n chunks"
    status is the number of entries stored. *)
Theorem ingestion_stores_every_chunk E w :
  Inj (=) (=) (uuid4 E) →
  (∀ urls,
     size (collection (run_urls E urls w).2) =
       length (split_documents (split_text E urls_splitter) (url_load E urls)))
  ∧ (∀ files,
       let chunks := split_documents (split_text E documents_splitter)
                       (loaded_documents E files w) in
       size (collection (run_documents E files w).2) = length chunks
       ∧ (chunks ≠ [] →
            last (run_documents E files w).1.1 = Some (done_msg chunks)
            ∧ size (collection (run_documents E files w).2) ≠ 0)).
Proof.
  intros Hinj. split.
  - intros urls.
    replace (run_urls E urls w).2 with (urls_run E urls w).2
      by (by rewrite run_urls_urls_run).
    destruct (urls_run_collection E urls w) as [w' ->].
    destruct (draw_uuids_distinct E
                (length (split_documents (split_text E urls_splitter)
                           (url_load E urls))) w' Hinj) as [Hnd Hlen].
    destruct (store_chunks_distinct _ _ ∅ Hnd Hlen) as [-> _]; [done|].
    by rewrite map_size_empty.
  - intros files chunks. rewrite run_documents_documents_run. cbn [fst snd].
    assert (size (collection (documents_run E files w).2) = length chunks) as Hsize.
    { destruct (documents_run_collection E files w) as [w' ->]. fold chunks.
      destruct (draw_uuids_distinct E (length chunks) w' Hinj) as [Hnd Hlen].
      destruct (store_chunks_distinct _ _ ∅ Hnd Hlen) as [-> _]; [done|].
      by rewrite map_size_empty. }
    split; [exact Hsize|].
    intros Hchunks. split.
    + destruct (documents_run_spec E files w)
        as (paths & _ & _ & _ & _ & _ & -> & _).
      fold chunks. unfold closing_statuses.
      destruct (loaded_documents E files w) as [|d ds] eqn:Hloaded.
      * destruct Hchunks. reflexivity.
      * rewrite !last_app. reflexivity.
    + rewrite Hsize. by destruct chunks.
Qed.

Lemma demo_uuid4_inj : Inj (=) (=) (uuid4 Demo.env).
Proof.
  intros i j Hij. simpl in Hij.
  apply (inj (String.app "uuid-")) in Hij. by apply (inj pretty) in Hij.
Defined.

Lemma ingestion_stores_every_chunk_witness :
  size (collection (run_urls Demo.env Demo.site_urls Demo.start).2) = 3
  ∧ last (run_documents Demo.env [Demo.notes] Demo.start).1.1 =
      Some "✅ Done! Added 1 chunks to vector database. You can now ask questions."
  ∧ size (collection (run_documents Demo.env [Demo.notes] Demo.start).2) ≠ 0.
Proof.
  destruct (ingestion_stores_every_chunk Demo.env Demo.start demo_uuid4_inj)
    as [Hurls Hdocs].
  split; [exact (Hurls Demo.site_urls)|].
  apply (Hdocs [Demo.notes]). discriminate.
Defined.

(** ** Substrings and lines *)

Lemma prefix_app (m s : string) : String.prefix m (m +:+ s) = true.
Proof.
  induction m as [|c m IH]; simpl; [by destruct s|].
  destruct (ascii_dec c c); [exact IH|done].
Qed.

Lemma prefix_app_l (m s t : string) :
  String.prefix m s = true → String.prefix m (s +:+ t) = true.
Proof.
  revert s. induction m as [|c m IH]; intros s H; [by destruct (s +:+ t)|].
  destruct s as [|c' s]; simpl in H; [done|]. simpl.
  destruct (ascii_dec c c'); [by apply IH|done].
Qed.

Lemma contains_unfold (m s : string) :
  contains m s =
    String.prefix m s ||
    match s with "" => false | String _ s' => contains m s' end.
Proof. by destruct s. Qed.

Lemma contains_prefix (m s : string) : contains m (m +:+ s) = true.
Proof. by rewrite contains_unfold, prefix_app. Qed.

(** A needle found in [s] is found in [s] followed by anything. *)
Lemma contains_app_l (m s t : string) :
  contains m s = true → contains m (s +:+ t) = true.
Proof.
  induction s as [|c s IH]; intros H.
  - destruct m; [by destruct t|done].
  - rewrite contains_unfold in H. apply orb_true_iff in H as [H|H].
    + by rewrite contains_unfold, (prefix_app_l m (String c s) t H).
    + change (String c s +:+ t) with (String c (s +:+ t)).
      rewrite contains_unfold, (IH H). apply orb_true_r.
Qed.


Lemma contains_nonempty (m s : string) :
  m ≠ "" → contains m s = true → s ≠ "".
Proof. intros Hm H ->. destruct m; [done|]. discriminate H. Qed.

Lemma split_lines_nonempty s : split_lines s ≠ [].
Proof.
  destruct s as [|c s]; simpl; [done|].
  case_decide; [done|]. by destruct (split_lines s).
Qed.

Lemma contains_LF_cons c s :
  contains LF (String c s) = false →
  c ≠ ascii_of_nat 10 ∧ contains LF s = false.
Proof.
  simpl. intros H. apply orb_false_iff in H as [Hp Hs]. split; [|done].
  intros ->. simpl in Hp. by destruct s.
Qed.

(** A text without line feed is a single line. *)
Lemma split_lines_one s : contains LF s = false → split_lines s = [s].
Proof.
  induction s as [|c s IH]; [done|].
  intros [Hc Hs]%contains_LF_cons. simpl.
  case_decide; [done|]. by rewrite (IH Hs).
Qed.

Lemma split_lines_app_LF s t :
  contains LF s = false → split_lines (s +:+ LF +:+ t) = s :: split_lines t.
Proof.
  induction s as [|c s IH]; [done|].
  intros [Hc Hs]%contains_LF_cons.
  change (String c s +:+ LF +:+ t) with (String c (s +:+ LF +:+ t)).
  simpl. case_decide; [done|]. by rewrite (IH Hs).
Qed.

(** Splitting at line feeds undoes joining with line feeds, provided there
    is something to join and no part has a line feed of its own. *)
Lemma split_lines_join l :
  l ≠ [] → Forall (λ s, contains LF s = false) l →
  split_lines (join LF l) = l.
Proof.
  induction l as [|s l IH]; [done|]. intros _ Hl.
  apply Forall_cons in Hl as [Hs Hl].
  destruct l as [|s' l]; [by apply split_lines_one|].
  change (join LF (s :: s' :: l)) with (s +:+ LF +:+ join LF (s' :: l)).
  rewrite split_lines_app_LF by done. f_equal. by apply IH.
Qed.

(** ** The status markers *)

Lemma error_marker_error_msg py f e : error_marker py (error_msg f e) = true.
Proof.
  unfold error_marker, error_msg.
  apply orb_true_iff. left. apply orb_true_iff. left.
  by apply contains_app_l.
Qed.

Lemma error_marker_no_documents py : error_marker py no_documents_msg = true.
Proof. reflexivity. Qed.


Lemma existsb_elem {A} (P : A → bool) (l : list A) x :
  x ∈ l → P x = true → existsb P l = true.
Proof.
  intros Hx HP. apply existsb_exists. exists x. split; [|done].
  by apply list_elem_of_In.
Qed.

Lemma existsb_false_elem {A} (P : A → bool) (l : list A) x :
  existsb P l = false → x ∈ l → P x = false.
Proof.
  intros Hl Hx. destruct (P x) eqn:HP; [|done].
  by rewrite (existsb_elem P l x Hx HP) in Hl.
Qed.

Section statuses.
Variable E : collaborators.

(** Every file of the batch has its report among the statuses of a run
    iterated to its end. *)
Lemma documents_run_file_report files w f :
  f ∈ files →
  ∃ p, ∀ s, s ∈ file_report E f p → s ∈ (documents_run E files w).1.
Proof.
  intros Hf.
  destruct (documents_run_spec E files w)
    as (paths & _ & _ & _ & Hlen & _ & -> & _).
  apply list_elem_of_lookup in Hf as [i Hi].
  destruct (lookup_lt_is_Some_2 paths i) as [p Hp].
  { rewrite Hlen. by eapply lookup_lt_Some. }
  exists p. intros s Hs.
  apply elem_of_app. right. apply elem_of_app. left.
  apply list_elem_of_In, in_concat. exists (file_report E f p).
  split; apply list_elem_of_In; [|done].
  apply list_elem_of_lookup. exists i.
  rewrite lookup_zip_with, Hi. simpl. by rewrite Hp.
Qed.

Lemma documents_run_closing files w s :
  s ∈ closing_statuses (loaded_documents E files w)
        (split_documents (split_text E documents_splitter)
           (loaded_documents E files w)) →
  s ∈ (documents_run E files w).1.
Proof.
  intros Hs.
  destruct (documents_run_spec E files w)
    as (paths & _ & _ & _ & _ & _ & -> & _).
  apply elem_of_app. right. apply elem_of_app. by right.
Qed.



(** Without an error marker anywhere, something was loaded and no file
    raised. *)
Lemma documents_run_no_error_marker py files w :
  existsb (error_marker py) (documents_run E files w).1 = false →
  loaded_documents E files w ≠ []
  ∧ ∀ f, f ∈ files →
      save_tmp E f = TmpSaved
      ∧ ∃ p docs, file_load E (select_loader (file_extension E f)) p f = Ok docs.
Proof.
  intros Hclean. split.
  - intros Hnone.
    assert (no_documents_msg ∈ (documents_run E files w).1) as Hin.
    { apply documents_run_closing. rewrite Hnone. by left. }
    pose proof (existsb_false_elem _ _ _ Hclean Hin) as H.
    by rewrite error_marker_no_documents in H.
  - intros f Hf. destruct (documents_run_file_report files w f Hf) as [p Hin].
    unfold file_report in Hin.
    assert (∀ e, error_msg f e ∉ (documents_run E files w).1) as Hno.
    { intros e He. pose proof (existsb_false_elem _ _ _ Hclean He) as H.
      by rewrite error_marker_error_msg in H. }
    destruct (save_tmp E f) as [e|e|].
    + destruct (Hno e). apply Hin. by left.
    + destruct (Hno e). apply Hin. by left.
    + split; [done|]. exists p.
      destruct (file_load E _ p f) as [docs|e] eqn:Hload; [by exists docs|].
      destruct (Hno e). apply Hin. right. by left.
Qed.

End statuses.

(** ** [api.py] *)

Section api.
Variable E : collaborators.
Variable py : str_methods.

Lemma process_documents_endpoint_run file files w :
  let statuses := (documents_run E (Api.file_wrappers (file :: files)) w).1 in
  let ok := existsb success_marker statuses
            && negb (existsb (error_marker py) statuses) in
  Api.process_documents_endpoint E py (file :: files) w =
    (Api.Respond
       {| Api.success := ok;
          Api.message :=
            if ok then "Documents processed successfully"
            else "Document processing failed. Check status_messages for details.";
          Api.status_messages := statuses |},
     (documents_run E (Api.file_wrappers (file :: files)) w).2).
Proof.
  intros statuses ok. subst statuses ok.
  unfold Api.process_documents_endpoint.
  rewrite run_documents_documents_run.
  destruct (documents_run E (Api.file_wrappers (file :: files)) w)
    as [statuses w']. simpl.
  by destruct (existsb success_marker statuses && _).
Qed.

Lemma elem_of_file_wrappers file files :
  file ∈ files →
  Api.FileWrapper file (Api.read file) ∈ Api.file_wrappers files.
Proof.
  intros H. unfold Api.file_wrappers.
  by apply (list_elem_of_fmap_2 (λ file, Api.FileWrapper file (Api.read file))).
Qed.

End api.



(** [process_documents_endpoint]: success is only reported when something
    was loaded and no file raised, neither while its temporary copy was
    made nor while it was loaded. *)
Theorem process_documents_endpoint_success_sound E py files w body :
  (Api.process_documents_endpoint E py files w).1 = Api.Respond body →
  Api.success body = true →
  loaded_documents E (Api.file_wrappers files) w ≠ []
  ∧ ∀ file, file ∈ files →
      save_tmp E (Api.FileWrapper file (Api.read file)) = TmpSaved
      ∧ ∃ p docs,
          file_load E
            (select_loader
               (file_extension E (Api.FileWrapper file (Api.read file))))
            p (Api.FileWrapper file (Api.read file)) = Ok docs.
Proof.
  destruct files as [|file0 files]; [done|].
  rewrite process_documents_endpoint_run. cbn [fst].
  intros [= <-]. cbn [Api.success]. intros [_ Hclean]%andb_true_iff.
  apply negb_true_iff in Hclean.
  destruct (documents_run_no_error_marker E py _ w Hclean) as [Hloaded Hfiles].
  split; [exact Hloaded|]. intros file Hfile.
  apply (Hfiles _ (elem_of_file_wrappers file (file0 :: files) Hfile)).
Qed.



Lemma process_documents_endpoint_success_sound_witness :
  loaded_documents Demo.env (Api.file_wrappers [DemoStr.notes_upload]) Demo.start
    ≠ [].
Proof.
  eapply (process_documents_endpoint_success_sound Demo.env DemoStr.py
            [DemoStr.notes_upload] Demo.start).
  - vm_compute. reflexivity.
  - reflexivity.
Defined.

Example error_log_batch_loads_everything :
  (run_documents Demo.env (Api.file_wrappers [DemoStr.error_log_upload])
     Demo.start).1.1 =
    ["Initializing Components"; "Resetting vector store...✅";
     "Loading Error_log.txt..."; "✅ Loaded Error_log.txt (1 pages/chunks)";
     "Splitting 1 document(s) into chunks...✅";
     "Created 1 chunks from documents";
     "Adding chunks to vector database...✅";
     "✅ Done! Added 1 chunks to vector database. You can now ask questions."].
Proof. vm_compute. reflexivity. Qed.

(** ** [rag.py] as a script, and [main.py] *)

Section script_and_ui.
Variable E : collaborators.
Variable py : str_methods.

(** From any world, [generate_answer] leaves the collection alone and
    calls nothing but the retriever and the model. *)
Lemma generate_answer_frame query w :
  collection (generate_answer E query w).2 = collection w
  ∧ ∃ cs, calls (generate_answer E query w).2 = calls w ++ cs
          ∧ Forall (λ c, is_ingestion_call c = false) cs.
Proof.
  unfold generate_answer.
  destruct (vector_store w) as [vs|] eqn:Hvs.
  - rewrite Hvs. simpl. destruct (llm w); simpl; (split; [done|]).
    + eexists [_; _]. rewrite <- app_assoc. split; [reflexivity|].
      by repeat constructor.
    + eexists [_]. split; [reflexivity|]. by repeat constructor.
  - destruct (initialize_components_store E w) as [vs' Hvs'].
    rewrite Hvs'. simpl.
    destruct (llm (initialize_components E w)); simpl;
      rewrite initialize_components_collection, initialize_components_calls;
      (split; [done|]).
    + eexists [_; _]. rewrite <- app_assoc. split; [reflexivity|].
      by repeat constructor.
    + eexists [_]. split; [reflexivity|]. by repeat constructor.
Qed.




Lemma app_cons_nonempty (s : string) c t : s +:+ String c t ≠ "".
Proof. by destruct s. Qed.

Lemma join_nonempty (l : list string) s :
  s ∈ l → s ≠ "" → join LF l ≠ "".
Proof.
  induction l as [|a l IH]; intros Hs Hne; [by apply elem_of_nil in Hs|].
  destruct l as [|a' l].
  - apply list_elem_of_singleton in Hs as ->. exact Hne.
  - change (join LF (a :: a' :: l)) with (a +:+ LF +:+ join LF (a' :: l)).
    apply app_cons_nonempty.
Qed.



End script_and_ui.

(** Run as a script, [rag.py] never ingests its two URLs: the generator it
    builds is dropped before its first status, so no status is produced,
    nothing is reset, loaded, split or added, and the question is answered
    from the collection as it was found. *)
Theorem script_main_never_ingests E w :
  (Script.main E w).1.1 = []
  ∧ (Script.main E w).1.2 = (generate_answer E Script.question w).1
  ∧ collection (Script.main E w).2 = collection w
  ∧ Forall (λ c, is_ingestion_call c = false) (calls_since w (Script.main E w).2).
Proof.
  unfold Script.main. simpl take. cbv iota beta.
  destruct (generate_answer_frame E Script.question w) as (Hc & cs & Hcalls & Hcs).
  destruct (generate_answer E Script.question w) as [r w']. simpl in *.
  split; [done|]. split; [done|]. split; [done|].
  by rewrite (calls_since_app _ _ _ Hcalls).
Qed.



Lemma filter_all {A} (P : A → Prop) `{∀ x, Decision (P x)} (l : list A) :
  Forall P l → filter P l = l.
Proof.
  induction 1 as [|x l Hx Hl IH]; [done|].
  rewrite filter_cons_True by done. by rewrite IH.
Qed.

(** What is written under "Source Links" is what [generate_answer] joined:
    when no source is empty, blank or contains a line feed, the bullets are
    the sorted distinct sources, one each. *)
Lemma source_bullets_extract_sources py docs :
  (∀ d s, d ∈ docs → doc_metadata d !! "source" = Some s →
          s ≠ "" ∧ contains LF s = false ∧ strip py s ≠ "") →
  Ui.source_bullets py (extract_sources docs) =
    (λ s, "• " +:+ s) <$> sorted (collect_sources docs).
Proof.
  intros Hdocs. unfold extract_sources. rewrite sources_string_sorted.
  assert (∀ s, s ∈ sorted (collect_sources docs) →
               s ≠ "" ∧ contains LF s = false ∧ strip py s ≠ "") as Hl.
  { intros s Hs. apply elem_of_sorted, elem_of_collect_sources in Hs
      as (d & Hd & Hsrc). eauto. }
  unfold Ui.source_bullets.
  destruct (sorted (collect_sources docs)) as [|s l] eqn:Hsorted; [done|].
  rewrite bool_decide_eq_false_2.
  - rewrite split_lines_join; [|done|].
    + rewrite filter_all; [done|].
      apply Forall_forall. intros x Hx. by apply Hl.
    + apply Forall_forall. intros x Hx. by apply Hl.
  - apply (join_nonempty _ s); [by left|]. apply Hl. by left.
Qed.

(** Both question boxes list the sources of an answer as one bullet per
    distinct source, in sorted order, provided no source is empty, blank or
    contains a line feed. *)
Theorem ask_tabs_list_sources E py query st w :
  query ≠ "" →
  initialized w →
  (∀ d s, d ∈ retrieve E (collection w) query →
          doc_metadata d !! "source" = Some s →
          s ≠ "" ∧ contains LF s = false ∧ strip py s ≠ "") →
  let docs := retrieve E (collection w) query in
  let reply := response_text
                 (llm_invoke E (llm_calls w)
                    (format_messages (context_text docs) query)) in
  let bullets := (λ s, "• " +:+ s) <$> sorted (collect_sources docs) in
  (Ui.ask_urls_tab E py query w).1 = Ui.Answer reply bullets
  ∧ (Ui.ask_documents_tab E py query st w).1 = Ui.Answer reply bullets.
Proof.
  intros Hq Hw Hdocs docs reply bullets. subst docs reply bullets.
  unfold Ui.ask_urls_tab, Ui.ask_documents_tab.
  rewrite (bool_decide_eq_false_2 _ Hq).
  pose proof (generate_answer_returns E query w Hw) as Hr.
  destruct (generate_answer E query w) as [r w']. simpl in Hr. subst r.
  cbn [fst]. by rewrite source_bullets_extract_sources.
Qed.

Lemma ask_tabs_list_sources_witness :
  (Ui.ask_urls_tab Demo.env DemoStr.py "rate?" Demo.loaded).1 =
    Ui.Answer "42" ["• https://example.com/a"; "• https://example.com/b"].
Proof.
  refine (proj1 (ask_tabs_list_sources Demo.env DemoStr.py "rate?"
                   {| Ui.docs_processed := false; Ui.urls_processed := true |}
                   Demo.loaded _ _ _)).
  - discriminate.
  - intros _. vm_compute. by eexists.
  - intros d s Hd.
    vm_compute in Hd.
    repeat (apply elem_of_cons in Hd as [->|Hd]); [..|by apply elem_of_nil in Hd];
      intros Hs; vm_compute in Hs; injection Hs as <-;
      (split; [discriminate|split; [reflexivity|discriminate]]).
Defined.


(** ** Runs in which a library call raises *)

Section raising.
Variable E : collaborators.
Variable F : Raising.faults.

(** Whatever [initialize_components] raises was raised by one of its two
    constructors; when it returns, the store handle is set. *)
Lemma raising_initialize_components_cases w :
  match Raising.initialize_components E F w with
  | (Some e, _) => ∃ p w', F p w' = Some e
  | (None, w1) =>
      is_Some (vector_store w1)
      ∧ collection w1 = collection w ∧ calls w1 = calls w
      ∧ llm_calls w1 = llm_calls w
  end.
Proof.
  unfold Raising.initialize_components.
  destruct (llm w) eqn:Hllm.
  - destruct (vector_store w) eqn:Hvs; [by eauto|].
    destruct (F Raising.NewChroma w) eqn:HF; [by eauto|].
    simpl. by eauto.
  - destruct (F Raising.NewChatGroq w) eqn:HF; [by eauto|].
    cbn [vector_store set_llm].
    destruct (vector_store w) eqn:Hvs; [by eauto|].
    destruct (F Raising.NewChroma _) eqn:HF'; [by eauto|].
    simpl. by eauto.
Qed.

(** When neither constructor raises, this is [initialize_components]. *)
Lemma raising_initialize_components_quiet w :
  (∀ w', F Raising.NewChatGroq w' = None) →
  (∀ w', F Raising.NewChroma w' = None) →
  Raising.initialize_components E F w = (None, initialize_components E w).
Proof.
  intros Hllm Hstore.
  unfold Raising.initialize_components, initialize_components.
  destruct (llm w); rewrite ?Hllm; cbn [vector_store set_llm];
    destruct (vector_store w); rewrite ?Hstore; reflexivity.
Qed.

(** A [RuntimeError] that leaves [generate_answer] was raised by a library
    call: the guard after the initialisation never fires. *)
Lemma raising_generate_answer_runtime_error query w msg :
  (Raising.generate_answer E F query w).1 = Raise (RuntimeError msg) →
  ∃ p w', F p w' = Some (RuntimeError msg).
Proof.
  unfold Raising.generate_answer.
  assert (∀ w1, is_Some (vector_store w1) →
            (match vector_store w1 with
             | None =>
                 (Raise (RuntimeError
                    "Vector database is not initialized. Please process URLs or documents first."),
                  w1)
             | Some _ =>
                 let w2 := record_call (CallRetrieve query) w1 in
                 match F (Raising.Calling (CallRetrieve query)) w1 with
                 | Some e => (Raise e, w2)
                 | None =>
                     let docs := retrieve E (collection w1) query in
                     let messages := format_messages (context_text docs) query in
                     match llm w2 with
                     | None =>
                         (Raise (Exception "'NoneType' object has no attribute 'invoke'"),
                          w2)
                     | Some _ =>
                         let w3 := record_call (CallLlm messages)
                                     (set_llm_calls (S (llm_calls w2)) w2) in
                         match F (Raising.Calling (CallLlm messages)) w2 with
                         | Some e => (Raise e, w3)
                         | None =>
                             (Ok (response_text (llm_invoke E (llm_calls w2) messages),
                                  extract_sources docs), w3)
                         end
                     end
                 end
             end).1 = Raise (RuntimeError msg) →
            ∃ p w', F p w' = Some (RuntimeError msg)) as Hbody.
  { intros w1 [h Hh]. rewrite Hh. cbv zeta.
    destruct (F (Raising.Calling (CallRetrieve query)) w1) eqn:Hr.
    - simpl. intros [= ->]. eauto.
    - destruct (llm (record_call (CallRetrieve query) w1)); [|discriminate].
      destruct (F (Raising.Calling (CallLlm _)) _) eqn:Hl; [|discriminate].
      simpl. intros [= ->]. eauto. }
  destruct (vector_store w) eqn:Hvs.
  - apply Hbody. rewrite Hvs. by eexists.
  - pose proof (raising_initialize_components_cases w) as Hinit.
    destruct (Raising.initialize_components E F w) as [[e|] w1].
    + simpl. intros [= ->]. exact Hinit.
    + apply Hbody. apply Hinit.
Qed.

(** With no library call raising, this is [generate_answer]. *)
Lemma raising_generate_answer_quiet query w :
  (∀ p w', F p w' = None) →
  Raising.generate_answer E F query w = generate_answer E query w.
Proof.
  intros Hquiet. unfold Raising.generate_answer, generate_answer.
  rewrite raising_initialize_components_quiet by auto.
  destruct (vector_store w) eqn:Hvs.
  - rewrite Hvs. cbv zeta. rewrite Hquiet.
    destruct (llm _); [|reflexivity]. by rewrite Hquiet.
  - destruct (vector_store (initialize_components E w)); [|reflexivity].
    cbv zeta. rewrite Hquiet.
    destruct (llm _); [|reflexivity]. by rewrite Hquiet.
Qed.

(** With no library call raising, the loop over [process_urls] is
    [urls_run]: the six statuses and no exception. *)
Lemma raising_process_urls_run_quiet urls w :
  (∀ p w', F p w' = None) →
  Raising.process_urls_run E F urls w =
    ((urls_run E urls w).1, None, (urls_run E urls w).2).
Proof.
  intros Hquiet. unfold Raising.process_urls_run, urls_run.
  rewrite raising_initialize_components_quiet by auto.
  rewrite !Hquiet. cbv zeta.
  destruct (draw_uuids E _ _) as [uuids w']. by rewrite Hquiet.
Qed.

(** A loop that ended without an exception went through all six statuses. *)
Lemma raising_process_urls_run_returned urls w :
  (Raising.process_urls_run E F urls w).1.2 = None →
  (Raising.process_urls_run E F urls w).1.1 =
    ["Initializing Components"; "Resetting vector store...✅"; "Loading data...✅";
     "Splitting text into chunks...✅"; "Add chunks to vector database...✅";
     "Done adding docs to vector database...✅"].
Proof.
  unfold Raising.process_urls_run.
  destruct (Raising.initialize_components E F w) as [[e|] w1]; [discriminate|].
  destruct (F _ w1); [discriminate|]. cbv zeta.
  destruct (F _ (reset_collection w1)); [discriminate|].
  destruct (F (Raising.Calling (CallSplit _ _)) _); [discriminate|].
  destruct (draw_uuids E _ _) as [uuids w'].
  destruct (F _ w'); [discriminate|]. reflexivity.
Qed.

(** With an empty corpus and no exception before [add_documents], the loop
    reaches that call with no chunk and no identifier. *)
Lemma raising_process_urls_run_empty urls w :
  url_load E urls = [] →
  (∀ p w', Raising.is_add p = false → F p w' = None) →
  ∃ w_add,
    collection w_add = ∅
    ∧ calls w_add =
        calls w ++ [CallResetCollection; CallLoadUrls urls; CallSplit urls_splitter []]
    ∧ Raising.process_urls_run E F urls w =
        match F (Raising.Calling (CallAddDocuments [] [])) w_add with
        | Some e =>
            (["Initializing Components"; "Resetting vector store...✅";
              "Loading data...✅"; "Splitting text into chunks...✅";
              "Add chunks to vector database...✅"],
             Some e, record_call (CallAddDocuments [] []) w_add)
        | None =>
            (["Initializing Components"; "Resetting vector store...✅";
              "Loading data...✅"; "Splitting text into chunks...✅";
              "Add chunks to vector database...✅";
              "Done adding docs to vector database...✅"],
             None, add_documents [] [] w_add)
        end.
Proof.
  intros Hload Hquiet. unfold Raising.process_urls_run.
  rewrite raising_initialize_components_quiet by (intros; by apply Hquiet).
  rewrite !Hquiet by done. cbv zeta. rewrite Hload.
  cbn [split_documents mbind list_bind length draw_uuids].
  eexists. split; [|split; [|reflexivity]].
  - reflexivity.
  - simpl. rewrite initialize_components_calls, <- !app_assoc. reflexivity.
Qed.

End raising.

(** C9.  [process_urls] has no empty-corpus check: when the URL loader
    gives no document and nothing raises before, the run yields no failure
    status and still calls the splitter and then [add_documents], with no
    chunk and no identifier.  Its closing "Done" status is yielded exactly
    when that call returns; when the call raises, the run ends with that
    exception right after the "Add chunks to vector database" status.
    Either way the collection is left empty. *)
Theorem process_urls_no_empty_check E F urls w :
  url_load E urls = [] →
  (∀ p w', Raising.is_add p = false → F p w' = None) →
  ∃ w_add,
    let '(statuses, raised, w') := Raising.process_urls_run E F urls w in
    raised = F (Raising.Calling (CallAddDocuments [] [])) w_add
    ∧ statuses =
        ["Initializing Components"; "Resetting vector store...✅"; "Loading data...✅";
         "Splitting text into chunks...✅"; "Add chunks to vector database...✅"] ++
        match raised with
        | None => ["Done adding docs to vector database...✅"]
        | Some _ => []
        end
    ∧ calls_since w w' =
        [CallResetCollection; CallLoadUrls urls; CallSplit urls_splitter [];
         CallAddDocuments [] []]
    ∧ collection w' = ∅.
Proof.
  intros Hload Hquiet.
  destruct (raising_process_urls_run_empty E F urls w Hload Hquiet)
    as (w_add & Hcoll & Hcalls & ->).
  exists w_add.
  destruct (F (Raising.Calling (CallAddDocuments [] [])) w_add) as [e|].
  - split; [done|]. split; [done|]. split; [|done].
    apply calls_since_app. simpl. rewrite Hcalls, <- app_assoc. reflexivity.
  - split; [done|]. split; [done|]. split; [|done].
    apply calls_since_app. simpl. rewrite Hcalls, <- app_assoc. reflexivity.
Qed.

Lemma process_urls_no_empty_check_witness :
  ∃ w',
    Raising.process_urls_run Demo.env Raising.empty_add_refused
      ["https://down.example"] Demo.start =
      (["Initializing Components"; "Resetting vector store...✅"; "Loading data...✅";
        "Splitting text into chunks...✅"; "Add chunks to vector database...✅"],
       Some (Exception "ValueError"), w')
    ∧ calls_since Demo.start w' =
        [CallResetCollection; CallLoadUrls ["https://down.example"];
         CallSplit urls_splitter []; CallAddDocuments [] []]
    ∧ collection w' = ∅.
Proof.
  destruct (process_urls_no_empty_check Demo.env Raising.empty_add_refused
              ["https://down.example"] Demo.start) as [w_add H].
  - reflexivity.
  - by intros [| |[]] w'.
  - destruct (Raising.process_urls_run Demo.env Raising.empty_add_refused
                ["https://down.example"] Demo.start) as [[statuses raised] w'].
    destruct H as (-> & -> & Hcalls & Hcoll).
    exists w'. split; [reflexivity|]. split; [exact Hcalls|exact Hcoll].
Defined.

(** With a client that refuses an empty batch, the run over a corpus that
    gives no document does not yield the closing "Done" status. *)
Lemma process_urls_empty_add_raises :
  ¬ (url_load Demo.env ["https://down.example"] = [] →
     last (Raising.process_urls_run Demo.env Raising.empty_add_refused
             ["https://down.example"] Demo.start).1.1 =
       Some "Done adding docs to vector database...✅").
Proof.
  intros H. specialize (H eq_refl). vm_compute in H. discriminate H.
Qed.

Example process_urls_empty_add_accepted :
  (Raising.process_urls_run Demo.env Raising.no_faults
     ["https://down.example"] Demo.start).1 =
    (["Initializing Components"; "Resetting vector store...✅"; "Loading data...✅";
      "Splitting text into chunks...✅"; "Add chunks to vector database...✅";
      "Done adding docs to vector database...✅"], None).
Proof. vm_compute. reflexivity. Qed.

(** [query_endpoint]: an empty or blank query is refused with 400 before
    anything is touched; on an initialised (or fresh) process with no
    library call raising, any other query gets the pair [generate_answer]
    returns and the collection is left alone.  The "Vector database is not
    initialized" 400 is sent only when a library call raised a
    [RuntimeError], never by the guard of [generate_answer]; it is what a
    [RuntimeError] of the retriever is reported as, also when the store
    handle is set. *)
Theorem query_endpoint_responses E F py query w :
  (query = "" ∨ strip py query = "" →
     Raising.query_endpoint E F py query w =
       (Api.HTTPException 400 "Query cannot be empty", w))
  ∧ (query ≠ "" → strip py query ≠ "" → initialized w →
     (∀ p w', F p w' = None) →
       (Raising.query_endpoint E F py query w).1 =
         Api.Respond
           {| Api.answer :=
                response_text
                  (llm_invoke E (llm_calls w)
                     (format_messages
                        (context_text (retrieve E (collection w) query)) query));
              Api.sources := extract_sources (retrieve E (collection w) query) |}
       ∧ collection (Raising.query_endpoint E F py query w).2 = collection w)
  ∧ ((Raising.query_endpoint E F py query w).1 =
       Api.HTTPException 400
         "Vector database is not initialized. Please process URLs or documents first." →
     ∃ p w' msg, F p w' = Some (RuntimeError msg))
  ∧ (query ≠ "" → strip py query ≠ "" →
     ∀ h msg,
       vector_store w = Some h →
       F (Raising.Calling (CallRetrieve query)) w = Some (RuntimeError msg) →
       (Raising.query_endpoint E F py query w).1 =
         Api.HTTPException 400
           "Vector database is not initialized. Please process URLs or documents first.").
Proof.
  unfold Raising.query_endpoint. split; [|split; [|split]].
  - intros [->|Hs]; [done|]. rewrite Hs.
    by rewrite (bool_decide_eq_true_2 ("" = "")), orb_true_r.
  - intros Hq Hs Hw Hquiet.
    rewrite (bool_decide_eq_false_2 _ Hq), (bool_decide_eq_false_2 _ Hs). simpl.
    rewrite raising_generate_answer_quiet by done.
    pose proof (generate_answer_returns E query w Hw) as Hr.
    destruct (generate_answer_world E query w Hw) as (Hc & _).
    destruct (generate_answer E query w) as [r w']. simpl in Hr, Hc.
    subst r. by simpl.
  - destruct (bool_decide (query = "") || bool_decide (strip py query = ""));
      [discriminate|].
    pose proof (raising_generate_answer_runtime_error E F query w) as Hlib.
    destruct (Raising.generate_answer E F query w) as [[[a s]|[msg|msg]] w'];
      simpl in *; [discriminate| |discriminate].
    intros _. destruct (Hlib msg eq_refl) as (p & w0 & Hp). eauto.
  - intros Hq Hs h msg Hvs Hr.
    rewrite (bool_decide_eq_false_2 _ Hq), (bool_decide_eq_false_2 _ Hs). simpl.
    unfold Raising.generate_answer. rewrite Hvs, Hvs. cbv zeta. rewrite Hr.
    reflexivity.
Qed.

Example query_endpoint_retriever_runtime_error :
  (Raising.query_endpoint Demo.env Raising.retriever_runtime_error DemoStr.py
     "rate?" Demo.loaded).1 =
    Api.HTTPException 400
      "Vector database is not initialized. Please process URLs or documents first."
  ∧ size (collection Demo.loaded) = 3.
Proof. split; vm_compute; reflexivity. Qed.

(** [process_urls_endpoint]: an empty list is refused with 400 before
    anything is touched; any other list is answered with success and the
    six statuses exactly when the run ended without an exception, and with
    500 and the text of the exception otherwise.  So a list of pages of
    which none could be loaded, sent to a client that refuses an empty
    batch, is answered with 500, and the collection has been emptied. *)
Theorem process_urls_endpoint_responses E F w :
  Raising.process_urls_endpoint E F [] w =
    (Api.HTTPException 400 "At least one URL is required", w)
  ∧ ∀ url urls,
      (Raising.process_urls_endpoint E F (url :: urls) w).1 =
        match (Raising.process_urls_run E F (url :: urls) w).1.2 with
        | None =>
            Api.Respond
              {| Api.success := true;
                 Api.message := "URLs processed successfully";
                 Api.status_messages :=
                   ["Initializing Components"; "Resetting vector store...✅";
                    "Loading data...✅"; "Splitting text into chunks...✅";
                    "Add chunks to vector database...✅";
                    "Done adding docs to vector database...✅"] |}
        | Some e => Api.HTTPException 500 ("Error processing URLs: " +:+ str e)
        end
      ∧ (url_load E (url :: urls) = [] →
         (∀ p w', Raising.is_add p = false → F p w' = None) →
         (∀ w', is_Some (F (Raising.Calling (CallAddDocuments [] [])) w')) →
         ∃ e,
           (Raising.process_urls_endpoint E F (url :: urls) w).1 =
             Api.HTTPException 500 ("Error processing URLs: " +:+ str e)
           ∧ collection (Raising.process_urls_endpoint E F (url :: urls) w).2 = ∅).
Proof.
  split; [done|]. intros url urls. unfold Raising.process_urls_endpoint. split.
  - pose proof (raising_process_urls_run_returned E F (url :: urls) w) as Hsix.
    destruct (Raising.process_urls_run E F (url :: urls) w)
      as [[statuses [e|]] w']; simpl in *; [done|].
    by rewrite Hsix.
  - intros Hload Hquiet Hrefused.
    destruct (raising_process_urls_run_empty E F (url :: urls) w Hload Hquiet)
      as (w_add & Hcoll & _ & ->).
    destruct (Hrefused w_add) as [e ->]. exists e. by split.
Qed.

Example process_urls_endpoint_nothing_loaded :
  (Raising.process_urls_endpoint Demo.env Raising.empty_add_refused
     ["https://down.example"] Demo.loaded).1 =
    Api.HTTPException 500 "Error processing URLs: ValueError"
  ∧ collection
      (Raising.process_urls_endpoint Demo.env Raising.empty_add_refused
         ["https://down.example"] Demo.loaded).2 = ∅
  ∧ size (collection Demo.loaded) = 3.
Proof. repeat split; vm_compute; reflexivity. Qed.


Example process_urls_button_nothing_loaded :
  Raising.process_urls_button Demo.env Raising.empty_add_refused
    "" "https://down.example" ""
    {| Ui.docs_processed := true; Ui.urls_processed := false |} Demo.loaded =
    (Ui.Uncaught (Exception "ValueError"),
     {| Ui.docs_processed := true; Ui.urls_processed := false |},
     (Raising.process_urls_run Demo.env Raising.empty_add_refused
        ["https://down.example"] Demo.loaded).2).
Proof. vm_compute. reflexivity. Qed.

(** The two question boxes tell the user to process something first only
    when a library call raised a [RuntimeError]; the guard of
    [generate_answer] never makes them do so.  When no library call raises
    a [RuntimeError] the URL tab shows no error box and what the documents
    tab shows does not depend on the [docs_processed] flag. *)
Theorem ask_tabs_process_first E F py query st w :
  ((Raising.ask_urls_tab E F py query w).1 =
     Ui.ErrorBox "You must process URLs first" →
   ∃ p w' msg, F p w' = Some (RuntimeError msg))
  ∧ ((Raising.ask_documents_tab E F py query st w).1 =
       Ui.ErrorBox
         "You must process documents first. Please upload and process documents before asking questions." →
     Ui.docs_processed st = false
     ∧ ∃ p w' msg, F p w' = Some (RuntimeError msg))
  ∧ ((∀ p w' msg, F p w' ≠ Some (RuntimeError msg)) →
     (∀ text, (Raising.ask_urls_tab E F py query w).1 ≠ Ui.ErrorBox text)
     ∧ ∀ st', Raising.ask_documents_tab E F py query st w =
              Raising.ask_documents_tab E F py query st' w).
Proof.
  unfold Raising.ask_urls_tab, Raising.ask_documents_tab.
  destruct (bool_decide (query = ""));
    [split; [discriminate|split; [discriminate|by split]]|].
  pose proof (raising_generate_answer_runtime_error E F query w) as Hlib.
  destruct (Raising.generate_answer E F query w) as [[[a s]|[msg|msg]] w'];
    simpl in *.
  - split; [discriminate|]. split; [discriminate|]. by split.
  - destruct (Hlib msg eq_refl) as (p & w0 & Hp).
    split; [eauto|]. split.
    + destruct (Ui.docs_processed st); [|eauto].
      intros H. vm_compute in H. discriminate H.
    + intros Hno. by destruct (Hno p w0 msg).
  - split; [discriminate|]. split; [|by split].
    intros H. vm_compute in H. discriminate H.
Qed.

Example ask_documents_tab_retriever_runtime_error :
  (Raising.ask_documents_tab Demo.env Raising.retriever_runtime_error DemoStr.py
     "rate?" {| Ui.docs_processed := false; Ui.urls_processed := true |}
     Demo.loaded).1 =
    Ui.ErrorBox
      "You must process documents first. Please upload and process documents before asking questions.".
Proof. vm_compute. reflexivity. Qed.

(** ** Document runs in which a library call raises *)

Section raising_documents.
Variable E : collaborators.
Variable F : Raising.faults.

Lemma raising_finish_quiet all_docs tmp_paths w :
  (∀ p w', F p w' = None) →
  Raising.finish E F all_docs tmp_paths w =
    ((finish E all_docs tmp_paths w).1, None, (finish E all_docs tmp_paths w).2).
Proof.
  intros Hquiet. unfold Raising.finish, finish.
  destruct all_docs as [|d all_docs]; [reflexivity|].
  rewrite Hquiet. cbv zeta.
  destruct (draw_uuids E _ _) as [uuids w']. by rewrite Hquiet.
Qed.

(** With no library call raising, the loop over [process_documents] is
    [documents_run]. *)
Lemma raising_process_documents_run_quiet files w :
  (∀ p w', F p w' = None) →
  Raising.process_documents_run E F files w =
    ((documents_run E files w).1, None, (documents_run E files w).2).
Proof.
  intros Hquiet. unfold Raising.process_documents_run, documents_run, loop_and_finish.
  rewrite raising_initialize_components_quiet by auto.
  rewrite Hquiet. cbv zeta.
  destruct (load_files E files [] [] _) as [[[reports all_docs] tmp_paths] w1].
  rewrite raising_finish_quiet by done.
  by destruct (finish E all_docs tmp_paths w1) as [closing w2].
Qed.




End raising_documents.


